(** * rld.model: observation packing, unpacking and the RLlib model wrapper

    A shallow embedding of [src/rld/model.py].  Python exceptions are the
    [Raise] results of an error monad, gym spaces are an inductive type,
    numpy arrays and torch tensors are a shape together with the row-major
    list of their elements, and (ordered) dicts are association lists. *)

From Stdlib Require Import String List Arith Bool Lia.
Import ListNotations.
Local Open Scope string_scope.
Local Open Scope list_scope.

Set Implicit Arguments.
Set Warnings "-register-all".

(** ** Spaces, Python values that reach [isinstance], exceptions *)

(** [gym.Space]: [Box] and [Dict] are the two kinds the module handles;
    [Discrete] and [Tuple] stand for every other kind.  [Dict.spaces] is an
    ordered dict, kept as the list of its items in order. *)
Inductive Space : Type :=
| Box (shape : list nat)
| Dict (spaces : list (string * Space))
| Discrete (n : nat)
| Tuple (members : list Space).

(** The object handed to [SpaceNotSupported]: whatever reached the [else]
    branch, a space or (when a dict was iterated by key) a string. *)
Inductive pyobj : Type :=
| PySpace (space : Space)
| PyStr (name : string).

Inductive exn : Type :=
| SpaceNotSupported (what : pyobj)
| NotImplementedError
| KeyError (key : string)
| IndexError
| TypeError
| ValueError
| RuntimeError.

Inductive result (T : Type) : Type :=
| Ok (v : T)
| Raise (e : exn).
Arguments Ok {T} v.
Arguments Raise {T} e.

Definition bind {T U : Type} (c : result T) (k : T -> result U) : result U :=
  match c with
  | Ok v => k v
  | Raise e => Raise e
  end.

Notation "x <- c ;; k" := (bind c (fun x => k))
  (at level 61, c at next level, right associativity).

(** A list comprehension whose body may raise: left to right, the first
    exception ends it. *)
Fixpoint mapM {T U : Type} (f : T -> result U) (l : list T) : result (list U) :=
  match l with
  | [] => Ok []
  | x :: l' => y <- f x ;; ys <- mapM f l' ;; Ok (y :: ys)
  end.

(** [zip] of two lists under a comprehension whose body may raise; the
    shorter list ends it. *)
Fixpoint zipM {T U V : Type} (f : T -> U -> result V) (l1 : list T) (l2 : list U)
  {struct l2} : result (list V) :=
  match l2 with
  | [] => Ok []
  | y :: l2' =>
      match l1 with
      | [] => Ok []
      | x :: l1' => v <- f x y ;; vs <- zipM f l1' l2' ;; Ok (v :: vs)
      end
  end.

(** ** Dicts as association lists *)

Definition dict_keys {V : Type} (d : list (string * V)) : list string := map fst d.
Definition dict_values {V : Type} (d : list (string * V)) : list V := map snd d.

Fixpoint dict_get {V : Type} (d : list (string * V)) (k : string) : option V :=
  match d with
  | [] => None
  | (k', v) :: d' => if String.eqb k' k then Some v else dict_get d' k
  end.

(** [d[k] = v] on an ordered dict: an existing key keeps its position. *)
Fixpoint dict_set {V : Type} (d : list (string * V)) (k : string) (v : V)
  : list (string * V) :=
  match d with
  | [] => [(k, v)]
  | (k', v') :: d' =>
      if String.eqb k' k then (k', v) :: d' else (k', v') :: dict_set d' k v
  end.

(** [OrderedDict(pairs)]. *)
Definition OrderedDict {V : Type} (pairs : list (string * V)) : list (string * V) :=
  fold_left (fun d kv => dict_set d (fst kv) (snd kv)) pairs [].

Fixpoint nodupb (l : list string) : bool :=
  match l with
  | [] => true
  | k :: l' => negb (existsb (String.eqb k) l') && nodupb l'
  end.

(** A space as gym builds it: the keys of every [Dict] are pairwise
    distinct. *)
Fixpoint wf_space (space : Space) : bool :=
  match space with
  | Box _ => true
  | Dict spaces =>
      nodupb (dict_keys spaces)
      && forallb (fun kv => wf_space (snd kv)) spaces
  | Discrete _ => true
  | Tuple members => forallb wf_space members
  end.

(** ** Arrays and tensors *)

Definition np_prod (shape : list nat) : nat := fold_right Nat.mul 1 shape.

Fixpoint np_cumsum_from (acc : nat) (l : list nat) : list nat :=
  match l with
  | [] => []
  | x :: l' => (acc + x) :: np_cumsum_from (acc + x) l'
  end.
Definition np_cumsum (l : list nat) : list nat := np_cumsum_from 0 l.

Definition shape_eqb (s1 s2 : list nat) : bool :=
  if list_eq_dec Nat.eq_dec s1 s2 then true else false.

Section Substrate.

(** The numeric element type, and the conversion to [np.float32]. *)
Variable elem : Type.
Variable float32 : elem -> elem.

(** A numpy array or a torch tensor: its shape and its elements in
    row-major order. *)
Record ndarray : Type := mk_array {
  arr_shape : list nat;
  arr_data : list elem
}.

Definition wf_array (a : ndarray) : Prop :=
  length (arr_data a) = np_prod (arr_shape a).

Definition ndim (a : ndarray) : nat := length (arr_shape a).

(** A one-dimensional array holding [l]. *)
Definition array1 (l : list elem) : ndarray := mk_array [length l] l.

(** A structured observation: an array (tensor), or an (ordered) dict of
    structured observations. *)
Inductive Obs : Type :=
| OArr (a : ndarray)
| ODict (items : list (string * Obs)).

(** [obs[name]] *)
Definition getitem (obs : Obs) (name : string) : result Obs :=
  match obs with
  | ODict items =>
      match dict_get items name with
      | Some v => Ok v
      | None => Raise (KeyError name)
      end
  | OArr _ => Raise IndexError
  end.

(** [np.asarray(obs, dtype=np.float32).flatten()] *)
Definition np_asarray_f32_flatten (obs : Obs) : result ndarray :=
  match obs with
  | OArr a => Ok (array1 (map float32 (arr_data a)))
  | ODict _ => Raise TypeError
  end.

(** [a.reshape(shape)] *)
Definition reshape (err : exn) (a : ndarray) (shape : list nat) : result ndarray :=
  if Nat.eqb (length (arr_data a)) (np_prod shape)
  then Ok (mk_array shape (arr_data a))
  else Raise err.

Definition np_reshape := reshape ValueError.
Definition torch_reshape := reshape RuntimeError.

(** [np.concatenate(arrays)] along axis 0. *)
Definition np_concatenate (arrays : list ndarray) : result ndarray :=
  match arrays with
  | [] => Raise ValueError
  | a :: _ =>
      match arr_shape a with
      | [] => Raise ValueError
      | _ :: trailing =>
          if forallb (fun b => shape_eqb (tl (arr_shape b)) trailing
                               && negb (Nat.eqb (ndim b) 0)) arrays
          then Ok (mk_array
                     (list_sum (map (fun b => hd 0 (arr_shape b)) arrays) :: trailing)
                     (concat (map arr_data arrays)))
          else Raise ValueError
      end
  end.

(** [a[start:stop]] along axis 0 of an array whose shape is [n :: trailing]. *)
Definition row_slice (a : ndarray) (n : nat) (trailing : list nat)
  (start stop : nat) : ndarray :=
  let lo := Nat.min start n in
  let hi := Nat.min stop n in
  mk_array ((hi - lo) :: trailing)
           (firstn ((hi - lo) * np_prod trailing)
                   (skipn (lo * np_prod trailing) (arr_data a))).

Fixpoint sections (a : ndarray) (n : nat) (trailing : list nat)
  (start : nat) (div_points : list nat) : list ndarray :=
  match div_points with
  | [] => []
  | stop :: rest => row_slice a n trailing start stop :: sections a n trailing stop rest
  end.

(** [np.split(ary, indices)] with a list of indices, along axis 0. *)
Definition np_split (ary : ndarray) (indices : list nat) : result (list ndarray) :=
  match arr_shape ary with
  | [] => Raise IndexError
  | n :: trailing => Ok (sections ary n trailing 0 (indices ++ [n]))
  end.

(** ** [_packed_size] *)

(** [_packed_size] at a [str] argument: neither [isinstance] test holds, so
    the [else] branch raises. *)
Definition _packed_size_str (space : string) : result nat :=
  Raise (SpaceNotSupported (PyStr space)).

(** [_packed_size] at a space.  The comprehension [for s in space.spaces]
    iterates the ordered dict, that is, its keys. *)
Definition _packed_size (space : Space) : result nat :=
  match space with
  | Box shape => Ok (np_prod shape)
  | Dict spaces =>
      sizes <- mapM _packed_size_str (dict_keys spaces) ;;
      Ok (list_sum sizes)
  | _ => Raise (SpaceNotSupported (PySpace space))
  end.

(** ** [pack_array] and [unpack_array] *)

Fixpoint pack_array (obs : Obs) (space : Space) {struct space} : result ndarray :=
  match space with
  | Box _ => np_asarray_f32_flatten obs
  | Dict spaces =>
      packed_values <-
        mapM (fun item => child <- getitem obs (fst item) ;;
                          pack_array child (snd item)) spaces ;;
      np_concatenate packed_values
  | _ => Raise (SpaceNotSupported (PySpace space))
  end.

Fixpoint unpack_array (obs : ndarray) (space : Space) {struct space} : result Obs :=
  match space with
  | Box shape => a <- np_reshape obs shape ;; Ok (OArr a)
  | Dict spaces =>
      sizes <- mapM _packed_size (dict_values spaces) ;;
      split_packed <- np_split obs (removelast (np_cumsum sizes)) ;;
      split_unpacked <-
        zipM (fun unpacked item => v <- unpack_array unpacked (snd item) ;;
                                   Ok (fst item, v)) split_packed spaces ;;
      Ok (ODict (OrderedDict split_unpacked))
  | _ => Raise (SpaceNotSupported (PySpace space))
  end.

(** ** Tensor operations *)

(** [obs.size(0)] *)
Definition size0 (obs : ndarray) : result nat :=
  match arr_shape obs with
  | [] => Raise IndexError
  | n :: _ => Ok n
  end.

(** [obs[b]] for an integer [b]. *)
Definition select (obs : ndarray) (b : nat) : result ndarray :=
  match arr_shape obs with
  | [] => Raise IndexError
  | n :: trailing =>
      if Nat.ltb b n
      then Ok (mk_array trailing
                 (firstn (np_prod trailing)
                         (skipn (b * np_prod trailing) (arr_data obs))))
      else Raise IndexError
  end.

Fixpoint chunks (a : ndarray) (n : nat) (trailing : list nat)
  (start : nat) (sizes : list nat) : list ndarray :=
  match sizes with
  | [] => []
  | size :: rest =>
      row_slice a n trailing start (start + size)
      :: chunks a n trailing (start + size) rest
  end.

(** [torch.split(obs, sizes)] with a list of sizes, along dim 0: the sizes
    must add up to the length of that dimension. *)
Definition torch_split (obs : ndarray) (sizes : list nat) : result (list ndarray) :=
  match arr_shape obs with
  | [] => Raise RuntimeError
  | n :: trailing =>
      if Nat.eqb (list_sum sizes) n
      then Ok (chunks obs n trailing 0 sizes)
      else Raise RuntimeError
  end.

(** [torch.stack(elems, dim=0)] *)
Definition torch_stack (elems : list ndarray) : result ndarray :=
  match elems with
  | [] => Raise RuntimeError
  | t :: _ =>
      if forallb (fun u => shape_eqb (arr_shape u) (arr_shape t)) elems
      then Ok (mk_array (length elems :: arr_shape t)
                        (concat (map arr_data elems)))
      else Raise RuntimeError
  end.

(** ** [tree.map_structure] over ordered dicts with tensor leaves

    The library first asserts that all structures have the same nesting
    (dicts with the same key set, leaves against leaves), then applies the
    function to the tuples of corresponding leaves, found by key, and
    rebuilds the result on the first structure, in its key order. *)

Fixpoint same_structure (s1 s2 : Obs) {struct s1} : bool :=
  match s1, s2 with
  | OArr _, OArr _ => true
  | ODict d1, ODict d2 =>
      Nat.eqb (length d1) (length d2)
      && forallb (fun item =>
                    match dict_get d2 (fst item) with
                    | Some sub2 => same_structure (snd item) sub2
                    | None => false
                    end) d1
  | _, _ => false
  end.

Definition leaf_of (s : Obs) : result ndarray :=
  match s with
  | OArr a => Ok a
  | ODict _ => Raise ValueError
  end.

Definition child_of (k : string) (s : Obs) : result Obs :=
  match s with
  | ODict d =>
      match dict_get d k with
      | Some v => Ok v
      | None => Raise ValueError
      end
  | OArr _ => Raise ValueError
  end.

Fixpoint stack_leaves (template : Obs) (structures : list Obs)
  {struct template} : result Obs :=
  match template with
  | OArr _ =>
      elems <- mapM leaf_of structures ;;
      stacked <- torch_stack elems ;;
      Ok (OArr stacked)
  | ODict items =>
      merged <-
        mapM (fun item => subs <- mapM (child_of (fst item)) structures ;;
                          m <- stack_leaves (snd item) subs ;;
                          Ok (fst item, m)) items ;;
      Ok (ODict merged)
  end.

(** [tree.map_structure(lambda *elems: torch.stack(elems, dim=0), *obs_list)] *)
Definition _merge_unpacked_batch (obs_list : list Obs) : result Obs :=
  match obs_list with
  | [] => Raise ValueError
  | first :: others =>
      if forallb (same_structure first) others
      then stack_leaves first obs_list
      else Raise ValueError
  end.

(** ** [unpack_tensor], [_unpack_tensor_single], [_unpack_tensor_batched]

    The three functions call each other; every call either goes to a child
    space or to a slice of lower rank.  [unpack_by_rank single] is
    [unpack_tensor] at a fixed space, by recursion on the rank of the tensor,
    where [single] is [_unpack_tensor_single] at that space. *)

Section ByRank.
Variable single : ndarray -> result Obs.

Fixpoint unpack_by_rank (rank : nat) (obs : ndarray) {struct rank} : result Obs :=
  match rank with
  | S (S _ as lower) =>
      batch_size <- size0 obs ;;
      unpacked <-
        mapM (fun b => slice <- select obs b ;; unpack_by_rank lower slice)
             (seq 0 batch_size) ;;
      _merge_unpacked_batch unpacked
  | _ => single obs
  end.
End ByRank.

Fixpoint _unpack_tensor_single (obs : ndarray) (space : Space) {struct space}
  : result Obs :=
  match space with
  | Box shape => a <- torch_reshape obs shape ;; Ok (OArr a)
  | Dict spaces =>
      sizes <- mapM _packed_size (dict_values spaces) ;;
      split_packed <- torch_split obs sizes ;;
      split_unpacked <-
        zipM (fun unpacked item =>
                v <- unpack_by_rank (fun o => _unpack_tensor_single o (snd item))
                       (ndim unpacked) unpacked ;;
                Ok (fst item, v)) split_packed spaces ;;
      Ok (ODict (OrderedDict split_unpacked))
  | _ => Raise (SpaceNotSupported (PySpace space))
  end.

Definition unpack_tensor (obs : ndarray) (space : Space) : result Obs :=
  unpack_by_rank (fun o => _unpack_tensor_single o space) (ndim obs) obs.

Definition _unpack_tensor_batched (obs : ndarray) (space : Space) : result Obs :=
  batch_size <- size0 obs ;;
  unpacked <-
    mapM (fun b => slice <- select obs b ;; unpack_tensor slice space)
         (seq 0 batch_size) ;;
  _merge_unpacked_batch unpacked.

(** ** The model classes *)

(** [gym.spaces.flatten] and [gym.spaces.unflatten], from the gym library. *)
Variable gym_flatten : Space -> Obs -> result Obs.
Variable gym_unflatten : Space -> Obs -> result Obs.

(** The abstract class [Model], on its two space methods. *)
Class Model (M : Type) : Type := {
  action_space : M -> result Space;
  obs_space : M -> result Space
}.

Definition flatten_obs {M : Type} `{Model M} (self : M) (obs : Obs) : result Obs :=
  space <- obs_space self ;;
  match space with
  | Box _ => Ok obs
  | _ => gym_flatten space obs
  end.

Definition unflatten_obs {M : Type} `{Model M} (self : M) (obs : Obs) : result Obs :=
  space <- obs_space self ;;
  match space with
  | Box _ => Ok obs
  | _ => gym_unflatten space obs
  end.

(** The bundle RLlib models take. *)
Record InputDict : Type := mk_input_dict {
  input_obs : Obs;
  input_obs_flat : ndarray
}.

(** [model.obs_space]: a space object, and its [original_space] attribute
    when it has one. *)
Record SpaceObject : Type := mk_space_object {
  this_space : Space;
  original_space : option Space
}.

(** An RLlib [ModelV2], as far as the wrapper uses it: its two spaces, and
    its call on an input bundle, a recurrent state and sequence lengths,
    which returns the outputs and the next state. *)
Record RayModel : Type := mk_ray_model {
  model_obs_space : SpaceObject;
  model_action_space : Space;
  model_call : InputDict -> option (list ndarray) -> option ndarray
               -> result (ndarray * list ndarray)
}.

(** [RayModelWrapper]; the preprocessor that [__init__] also stores is read
    by none of the methods. *)
Record RayModelWrapper : Type := mk_wrapper { model : RayModel }.

Definition unwrapped (self : RayModelWrapper) : RayModel := model self.

Definition RayModelWrapper_obs_space (self : RayModelWrapper) : Space :=
  match original_space (model_obs_space (model self)) with
  | Some original => original
  | None => this_space (model_obs_space (model self))
  end.

#[export] Instance RayModelWrapper_Model : Model RayModelWrapper := {
  action_space self := Ok (model_action_space (model self));
  obs_space self := Ok (RayModelWrapper_obs_space self)
}.

(** The [input_dict] that [forward] builds. *)
Definition forward_input_dict (self : RayModelWrapper) (x : ndarray)
  : result InputDict :=
  match RayModelWrapper_obs_space self with
  | Box _ =>
      unpacked <- unpack_tensor x (RayModelWrapper_obs_space self) ;;
      Ok (mk_input_dict unpacked x)
  | _ => Ok (mk_input_dict (OArr x) x)
  end.

(** One call of the wrapped model, as [forward] makes it. *)
Record Invocation : Type := mk_invocation {
  call_input_dict : InputDict;
  call_state : option (list ndarray);
  call_seq_lens : option ndarray
}.

(** [forward]: the calls made to the wrapped model, and the result. *)
Definition forward (self : RayModelWrapper) (x : ndarray)
  : list Invocation * result ndarray :=
  match forward_input_dict self x with
  | Raise e => ([], Raise e)
  | Ok input_dict =>
      let state := @None (list ndarray) in
      let seq_lens := @None ndarray in
      ([mk_invocation input_dict state seq_lens],
       out <- model_call (model self) input_dict state seq_lens ;;
       Ok (fst out))
  end.

End Substrate.

Arguments Model M : clear implicits.

(** ** Predicates used to state the properties *)






Definition is_box (space : Space) : bool :=
  match space with
  | Box _ => true
  | _ => false
  end.

(** A [Dict] with at least one item. *)
Definition has_items (space : Space) : bool :=
  match space with
  | Dict (_ :: _) => true
  | _ => false
  end.

(** A [Box], or a [Dict] with distinct keys whose children are all [Box]es
    and which has at least one: the spaces with at most one level of
    nesting. *)
Definition flat_space (space : Space) : bool :=
  match space with
  | Box _ => true
  | Dict spaces =>
      negb (Nat.eqb (length spaces) 0)
      && nodupb (dict_keys spaces)
      && forallb (fun kv => is_box (snd kv)) spaces
  | _ => false
  end.

(** The [Dict] items for named boxes of given shapes. *)
Definition boxes (items : list (string * list nat)) : list (string * Space) :=
  map (fun item => (fst item, Box (snd item))) items.

(** ** Observations that match a space *)

Section Conformance.
Variable elem : Type.

(** [conforms batch space o]: [o] is shaped like [space], a dict for each
    [Dict] with the same keys in the same order, and for each [Box] an
    array holding one box per index into the leading [batch] dimensions.
    With [batch = []] it is the valid structured observation of the
    space. *)
Fixpoint conforms (batch : list nat) (space : Space) (o : Obs elem)
  {struct space} : Prop :=
  match space, o with
  | Box shape, OArr a => arr_shape a = batch ++ shape /\ wf_array a
  | Dict spaces, ODict d =>
      (fix each (items : list (string * Space)) (d : list (string * Obs elem))
         {struct items} : Prop :=
         match items, d with
         | [], [] => True
         | (k, s) :: items', (k', v) :: d' =>
             k = k' /\ conforms batch s v /\ each items' d'
         | _, _ => False
         end) spaces d
  | _, _ => False
  end.

(** The observation with [f] applied to every element. *)
Fixpoint obs_map (f : elem -> elem) (o : Obs elem) : Obs elem :=
  match o with
  | OArr a => OArr (mk_array (arr_shape a) (map f (arr_data a)))
  | ODict items => ODict (map (fun item => (fst item, obs_map f (snd item))) items)
  end.

(** The dict holding array [a] under the key of its item, in order. *)
Definition named_arrays (items : list (string * list nat)) (arrays : list (ndarray elem))
  : list (string * Obs elem) :=
  map (fun p => (fst (fst p), OArr (snd p))) (combine items arrays).

(** Index [b] along the leading dimension of every leaf. *)
Fixpoint obs_select (o : Obs elem) (b : nat) : result (Obs elem) :=
  match o with
  | OArr a => slice <- select a b ;; Ok (OArr slice)
  | ODict items =>
      selected <- mapM (fun item => v <- obs_select (snd item) b ;;
                                    Ok (fst item, v)) items ;;
      Ok (ODict selected)
  end.

(** The child under key [k], or the observation itself without one. *)
Definition child_or (k : string) (o : Obs elem) : Obs elem :=
  match child_of k o with
  | Ok v => v
  | Raise _ => o
  end.

(** C1 the way the specification words it: a box space passes the flat
    block through as the observation, a dict space receives the unpacked
    block. *)
Definition forward_input_as_specified (self : RayModelWrapper elem) (x : ndarray elem)
  : Prop :=
  match RayModelWrapper_obs_space self with
  | Box _ => forward_input_dict self x = Ok (mk_input_dict (OArr x) x)
  | Dict spaces =>
      exists structured,
        unpack_tensor x (Dict spaces) = Ok structured
        /\ forward_input_dict self x = Ok (mk_input_dict structured x)
  | _ => True
  end.

(** Stacking works at space [s]: observations that conform to [s] with
    batch dimensions [batch] stack into one that conforms with one more
    leading dimension, and whose index [i] is the [i]-th of them. *)
Definition stacks_well (batch : list nat) (s : Space) : Prop :=
  forall (template : Obs elem) (subs : list (Obs elem)),
    subs <> [] ->
    conforms batch s template ->
    Forall (conforms batch s) subs ->
    exists R,
      stack_leaves template subs = Ok R
      /\ conforms (length subs :: batch) s R
      /\ forall i, i < length subs -> obs_select R i = Ok (nth i subs template).

End Conformance.

(** ** Measures of a space *)

(** The number of elements that the boxes of a space hold together. *)
Fixpoint box_elements (space : Space) : nat :=
  match space with
  | Box shape => np_prod shape
  | Dict spaces => list_sum (map (fun item => box_elements (snd item)) spaces)
  | _ => 0
  end.

(** The spaces built from boxes and from dicts with at least one item. *)
Fixpoint packable (space : Space) : bool :=
  match space with
  | Box _ => true
  | Dict spaces =>
      negb (Nat.eqb (length spaces) 0)
      && forallb (fun item => packable (snd item)) spaces
  | _ => false
  end.

(** The space with the shape of every box forgotten. *)
Fixpoint erase_shapes (space : Space) : Space :=
  match space with
  | Box _ => Box []
  | Dict spaces =>
      Dict (map (fun item => (fst item, erase_shapes (snd item))) spaces)
  | _ => space
  end.

(** ** examples/cartpole/config.py *)

Section Baseline.
Variable elem : Type.

(** The number zero of the element type. *)
Variable zero : elem.

(** A one-dimensional array: its shape is its number of elements. *)
Definition one_dim (v : ndarray elem) : Prop :=
  arr_shape v = [length (arr_data v)].

(** [np.zeros_like(a)] of an array. *)
Definition np_zeros_like (a : ndarray elem) : ndarray elem :=
  mk_array (arr_shape a) (repeat zero (np_prod (arr_shape a))).

(** [baseline_builder]: [np.zeros_like(obs)].  A dict is no array-like of
    numbers: numpy takes it as one object and answers with a scalar array
    holding zero. *)
Definition baseline_builder (obs : Obs elem) : Obs elem :=
  match obs with
  | OArr a => OArr (np_zeros_like a)
  | ODict _ => OArr (mk_array [] [zero])
  end.

End Baseline.

Unset Implicit Arguments.

(** ** Induction over spaces, through the items of a [Dict] *)

Section SpaceInduction.
Variable P : Space -> Prop.
Hypothesis HBox : forall shape, P (Box shape).
Hypothesis HDict :
  forall spaces, Forall (fun kv => P (snd kv)) spaces -> P (Dict spaces).
Hypothesis HDiscrete : forall n, P (Discrete n).
Hypothesis HTuple : forall members, Forall P members -> P (Tuple members).

Fixpoint Space_nested_ind (space : Space) : P space :=
  match space with
  | Box shape => HBox shape
  | Dict spaces =>
      HDict spaces
        ((fix items_ind (l : list (string * Space))
            : Forall (fun kv => P (snd kv)) l :=
            match l with
            | [] => Forall_nil _
            | (k, s) :: l' =>
                Forall_cons (k, s) (Space_nested_ind s) (items_ind l')
            end) spaces)
  | Discrete n => HDiscrete n
  | Tuple members =>
      HTuple members
        ((fix members_ind (l : list Space) : Forall P l :=
            match l with
            | [] => Forall_nil _
            | s :: l' => Forall_cons s (Space_nested_ind s) (members_ind l')
            end) members)
  end.
End SpaceInduction.

Set Implicit Arguments.

(** ** Inputs used in the examples: elements are natural numbers, which
    [np.float32] represents exactly in the range used. *)

Definition float32_exact (x : nat) : nat := x.

Definition pos_vel : Space := Dict [("pos", Box [2]); ("vel", Box [1])].
Definition pos_vel_obs : Obs nat :=
  ODict [("pos", OArr (array1 [1; 2])); ("vel", OArr (array1 [3]))].

Definition nested : Space :=
  Dict [("a", Dict [("x", Box [1])]); ("b", Box [2])].
Definition nested_obs : Obs nat :=
  ODict [("a", ODict [("x", OArr (array1 [5]))]); ("b", OArr (array1 [6; 7]))].


(** A wrapped model that answers with its flat input. *)
Definition echo_model (declared : Space) (original : option Space) : RayModel nat :=
  mk_ray_model (mk_space_object declared original) (Discrete 2)
    (fun input_dict _ _ => Ok (input_obs_flat input_dict, [])).

Definition echo_wrapper (declared : Space) (original : option Space)
  : RayModelWrapper nat :=
  mk_wrapper (echo_model declared original).

Unset Implicit Arguments.

Section Properties.

Variable elem : Type.
Variable float32 : elem -> elem.
Variable gym_flatten : Space -> Obs elem -> result (Obs elem).
Variable gym_unflatten : Space -> Obs elem -> result (Obs elem).

(** *** The error monad and comprehensions *)

Lemma mapM_ext_in (T U : Type) (f g : T -> result U) (l : list T) :
  (forall x, In x l -> f x = g x) -> mapM f l = mapM g l.
Proof.
  induction l as [|x l IH]; intros Hfg; simpl; [reflexivity|].
  rewrite (Hfg x (or_introl eq_refl)).
  rewrite IH; [reflexivity|].
  intros y Hy. apply Hfg. now right.
Qed.

Lemma mapM_map (T U V : Type) (f : U -> result V) (g : T -> U) (l : list T) :
  mapM f (map g l) = mapM (fun x => f (g x)) l.
Proof.
  induction l as [|x l IH]; simpl; [reflexivity|]. now rewrite IH.
Qed.

Lemma mapM_Ok_length (T U : Type) (f : T -> result U) (l : list T) (r : list U) :
  mapM f l = Ok r -> length r = length l.
Proof.
  revert r. induction l as [|x l IH]; simpl; intros r H.
  - now inversion H.
  - destruct (f x); simpl in H; [|discriminate].
    destruct (mapM f l); simpl in H; [|discriminate].
    inversion H; subst. simpl. f_equal. now apply IH.
Qed.

Lemma bind_Ok_inv (T U : Type) (c : result T) (k : T -> result U) (u : U) :
  bind c k = Ok u -> exists v, c = Ok v /\ k v = Ok u.
Proof.
  destruct c as [v|e]; simpl; intros H; [now exists v | discriminate].
Qed.

(** *** The comprehensions of [pack_array] as [mapM] *)

Lemma pack_array_Dict (obs : Obs elem) (spaces : list (string * Space)) :
  pack_array float32 obs (Dict spaces) =
  (packed_values <-
     mapM (fun kv => child <- getitem obs (fst kv) ;;
                     pack_array float32 child (snd kv)) spaces ;;
   np_concatenate packed_values).
Proof. reflexivity. Qed.

(** *** The wrapper *)

(** C8: [obs_space] of the wrapper is the [original_space] attribute of
    the model's space when the attribute is there, and the model's space
    itself otherwise; nothing else of the model is looked at. *)
Theorem obs_space_prefers_original (self : RayModelWrapper elem) :
  (forall original,
      original_space (model_obs_space (model self)) = Some original ->
      obs_space self = Ok original)
  /\ (original_space (model_obs_space (model self)) = None ->
      obs_space self = Ok (this_space (model_obs_space (model self))))
  /\ (forall other : RayModelWrapper elem,
         model_obs_space (model other) = model_obs_space (model self) ->
         obs_space other = obs_space self).
Proof.
  unfold obs_space; simpl; unfold RayModelWrapper_obs_space.
  repeat split.
  - intros original H. now rewrite H.
  - intros H. now rewrite H.
  - intros other H. now rewrite H.
Qed.

(** C7: with a [Box] observation space, [flatten_obs] returns the
    observation it was given, whatever gym's [flatten] would do. *)
Theorem flatten_obs_box_is_identity (M : Type) (H : Model M) (self : M)
  (obs : Obs elem) (shape : list nat) :
  obs_space self = Ok (Box shape) ->
  flatten_obs gym_flatten self obs = Ok obs.
Proof.
  intros Hspace. unfold flatten_obs. rewrite Hspace. reflexivity.
Qed.

Lemma unflatten_obs_box_is_identity (M : Type) (H : Model M) (self : M)
  (obs : Obs elem) (shape : list nat) :
  obs_space self = Ok (Box shape) ->
  unflatten_obs gym_unflatten self obs = Ok obs.
Proof.
  intros Hspace. unfold unflatten_obs. rewrite Hspace. reflexivity.
Qed.

(** C10: every call [forward] makes to the wrapped model has state [None]
    and sequence lengths [None]; once the input bundle is built there is
    exactly one call, and the result is the first component of what the
    model returned; when building the bundle raises, the model is not
    called. *)
Theorem forward_calls_model_without_state (self : RayModelWrapper elem)
  (x : ndarray elem) :
  (forall c, In c (fst (forward self x)) ->
             call_state c = None /\ call_seq_lens c = None)
  /\ (forall input_dict,
         forward_input_dict self x = Ok input_dict ->
         fst (forward self x) = [mk_invocation input_dict None None]
         /\ snd (forward self x) =
            match model_call (model self) input_dict None None with
            | Ok (out, _) => Ok out
            | Raise e => Raise e
            end)
  /\ (forall e, forward_input_dict self x = Raise e ->
                forward self x = ([], Raise e)).
Proof.
  unfold forward. destruct (forward_input_dict self x) as [d|e]; simpl.
  - repeat split.
    + destruct H as [<-|[]]. reflexivity.
    + destruct H as [<-|[]]. reflexivity.
    + inversion H; subst. reflexivity.
    + inversion H; subst.
      destruct (model_call (model self) input_dict None None) as [[out st]|e];
        reflexivity.
    + discriminate.
  - repeat split; try contradiction; try discriminate.
    intros e' H. now inversion H.
Qed.

(** C9: packing against a [Dict] space looks the observation up at the
    declared keys only: two mappings that agree there pack alike, values
    and exceptions included. *)
Theorem pack_array_reads_declared_keys (spaces : list (string * Space))
  (d1 d2 : list (string * Obs elem)) :
  (forall name, In name (dict_keys spaces) -> dict_get d1 name = dict_get d2 name) ->
  pack_array float32 (ODict d1) (Dict spaces)
  = pack_array float32 (ODict d2) (Dict spaces).
Proof.
  intros Hagree. rewrite !pack_array_Dict. f_equal.
  apply mapM_ext_in. intros [name s] Hin. simpl.
  rewrite (Hagree name); [reflexivity|].
  unfold dict_keys. change name with (fst (name, s)). now apply in_map.
Qed.


Lemma mapM_Ok_Forall2 (T U : Type) (f : T -> result U) (l : list T) (r : list U) :
  mapM f l = Ok r -> Forall2 (fun x y => f x = Ok y) l r.
Proof.
  revert r. induction l as [|x l IH]; simpl; intros r H.
  - inversion H. constructor.
  - destruct (f x) as [y|] eqn:Hx; simpl in H; [|discriminate].
    destruct (mapM f l) as [ys|]; simpl in H; [|discriminate].
    inversion H; subst. constructor; [assumption | now apply IH].
Qed.

Lemma Forall2_mapM_Ok (T U : Type) (f : T -> result U) (l : list T) (r : list U) :
  Forall2 (fun x y => f x = Ok y) l r -> mapM f l = Ok r.
Proof.
  induction 1 as [|x y l r Hx _ IH]; simpl; [reflexivity|].
  now rewrite Hx, IH.
Qed.

(** *** [_packed_size] *)

Lemma _packed_size_Box (shape : list nat) :
  _packed_size (Box shape) = Ok (np_prod shape).
Proof. reflexivity. Qed.

(** On a [Dict] with at least one item the comprehension hands the first
    key to [_packed_size], which raises on it. *)
Lemma _packed_size_Dict_cons (name : string) (s : Space)
  (rest : list (string * Space)) :
  _packed_size (Dict ((name, s) :: rest)) = Raise (SpaceNotSupported (PyStr name)).
Proof. reflexivity. Qed.

Lemma _packed_size_Dict_nil : _packed_size (Dict []) = Ok 0.
Proof. reflexivity. Qed.

Lemma _packed_size_cases (space : Space) :
  (exists n, _packed_size space = Ok n)
  \/ (exists what, _packed_size space = Raise (SpaceNotSupported what)).
Proof.
  destruct space as [shape|[|[name s] rest]|n|members]; simpl; eauto.
Qed.

(** The sizes of the children are computed in order; a child without a size
    makes the comprehension raise [SpaceNotSupported]. *)
Lemma sizes_raise (p : Space -> bool) (spaces : list (string * Space)) :
  (forall s, p s = true ->
             exists what, _packed_size s = Raise (SpaceNotSupported what)) ->
  existsb (fun kv => p (snd kv)) spaces = true ->
  exists what,
    mapM _packed_size (dict_values spaces) = Raise (SpaceNotSupported what).
Proof.
  intros Hp. unfold dict_values.
  induction spaces as [|[name s] rest IH]; intros H; [discriminate|].
  cbn [existsb snd orb map mapM] in *.
  destruct (p s) eqn:Hs.
  - destruct (Hp s Hs) as [what Hw]. exists what. now rewrite Hw.
  - destruct (IH H) as [what Hw].
    destruct (_packed_size_cases s) as [[n Hn]|[what' Hn]]; rewrite Hn.
    + exists what. now rewrite Hw.
    + now exists what'.
Qed.

(** Unpacking against a [Dict] that has a [Dict] child with at least one
    item raises, whatever the flat block: the child has no size. *)
Lemma unpack_nested_dict_raises (spaces : list (string * Space))
  (flat : ndarray elem) :
  existsb (fun kv => has_items (snd kv)) spaces = true ->
  (exists what, unpack_array flat (Dict spaces) = Raise (SpaceNotSupported what))
  /\ (exists what,
         _unpack_tensor_single flat (Dict spaces) = Raise (SpaceNotSupported what)).
Proof.
  intros H.
  destruct (sizes_raise has_items spaces) as [what Hw]; [|exact H|].
  - intros [shape|[|[name s] rest]|n|members]; simpl; try discriminate. eauto.
  - split; exists what; simpl; now rewrite Hw.
Qed.

(** *** Spaces of another kind *)








(** *** Lists, dicts and blocks of elements *)

Lemma Forall2_and (T U : Type) (P Q : T -> U -> Prop) (l : list T) (r : list U) :
  Forall2 P l r -> Forall2 Q l r -> Forall2 (fun x y => P x y /\ Q x y) l r.
Proof.
  induction 1 as [|x y l r HP _ IH]; intros HQ; inversion HQ; subst;
    constructor; auto.
Qed.

Lemma Forall2_weaken_in (T U : Type) (P Q : T -> U -> Prop) (l : list T) (r : list U) :
  (forall x y, In x l -> P x y -> Q x y) -> Forall2 P l r -> Forall2 Q l r.
Proof.
  intros Himp H. induction H as [|x y l r HP _ IH]; constructor.
  - apply Himp; [now left | assumption].
  - apply IH. intros x' y' Hin. apply Himp. now right.
Qed.

Lemma Forall2_in_left (T U : Type) (P : T -> U -> Prop) (l : list T) (r : list U)
  (x : T) :
  Forall2 P l r -> In x l -> exists y, In y r /\ P x y.
Proof.
  induction 1 as [|x' y l r HP _ IH]; intros Hin; [contradiction|].
  destruct Hin as [->|Hin].
  - exists y. split; [now left | assumption].
  - destruct (IH Hin) as [y' [Hy' HP']]. exists y'. split; [now right | assumption].
Qed.

Lemma Forall2_in_right (T U : Type) (P : T -> U -> Prop) (l : list T) (r : list U)
  (y : U) :
  Forall2 P l r -> In y r -> exists x, In x l /\ P x y.
Proof.
  induction 1 as [|x y' l r HP _ IH]; intros Hin; [contradiction|].
  destruct Hin as [->|Hin].
  - exists x. split; [now left | assumption].
  - destruct (IH Hin) as [x' [Hx' HP']]. exists x'. split; [now right | assumption].
Qed.

Lemma Forall2_diag (T : Type) (P : T -> T -> Prop) (l : list T) :
  (forall x, In x l -> P x x) -> Forall2 P l l.
Proof.
  induction l as [|x l IH]; intros H; constructor.
  - apply H. now left.
  - apply IH. intros y Hy. apply H. now right.
Qed.

Lemma zipM_Ok_Forall2 (T U V : Type) (f : T -> U -> result V)
  (l1 : list T) (l2 : list U) (r : list V) :
  length l1 = length l2 ->
  zipM f l1 l2 = Ok r ->
  Forall2 (fun y v => exists x, In x l1 /\ f x y = Ok v) l2 r.
Proof.
  revert l1 r. induction l2 as [|y l2 IH]; intros [|x l1] r Hlen H;
    try discriminate; simpl in H.
  - inversion H. constructor.
  - destruct (f x y) as [v|] eqn:Hv; simpl in H; [|discriminate].
    destruct (zipM f l1 l2) as [vs|] eqn:Hvs; simpl in H; [|discriminate].
    inversion H; subst. constructor.
    + exists x. split; [now left | assumption].
    + eapply Forall2_weaken_in; [|apply (IH l1 vs); [now inversion Hlen | assumption]].
      intros y' v' _ [x' [Hx' Hf]]. exists x'. split; [now right | assumption].
Qed.

Lemma Forall2_map_eq (T U : Type) (g : T -> U) (l : list T) (r : list U) :
  Forall2 (fun x y => g x = y) l r -> map g l = r.
Proof. induction 1; simpl; congruence. Qed.

Lemma Forall2_map_right (T U V : Type) (P : T -> V -> Prop) (g : U -> V)
  (l : list T) (r : list U) :
  Forall2 (fun x y => P x (g y)) l r -> Forall2 P l (map g r).
Proof. induction 1; simpl; constructor; auto. Qed.

Lemma nodupb_NoDup (l : list string) : nodupb l = true -> NoDup l.
Proof.
  induction l as [|k l IH]; simpl; intros H; constructor.
  - apply andb_true_iff in H. destruct H as [Hk _].
    intros Hin. apply negb_true_iff in Hk.
    assert (Hex : existsb (String.eqb k) l = true).
    { apply existsb_exists. exists k. split; [assumption | apply String.eqb_refl]. }
    congruence.
  - apply andb_true_iff in H. now apply IH.
Qed.

(** In a dict whose keys are those of [items], in order and without
    repetition, looking up the key of an item finds the value at the same
    position. *)
Lemma dict_get_positional (V W : Type) (items : list (string * W))
  (d : list (string * V)) :
  NoDup (map fst items) ->
  Forall2 (fun item kv => fst item = fst kv) items d ->
  Forall2 (fun item kv => dict_get d (fst item) = Some (snd kv)) items d.
Proof.
  intros Hnodup H. induction H as [|[k w] [k' v] items d Hk _ IH]; [constructor|].
  simpl in Hk; subst k'. inversion Hnodup as [|? ? Hnotin Hnodup']; subst.
  constructor.
  - simpl. now rewrite String.eqb_refl.
  - eapply Forall2_weaken_in; [|apply IH; assumption].
    intros [k1 w1] [k2 v2] Hin Hget. simpl in *.
    destruct (String.eqb_spec k k1) as [->|_]; [|assumption].
    exfalso. apply Hnotin. change k1 with (fst (k1, w1)). now apply in_map.
Qed.

Lemma dict_set_fresh (V : Type) (d : list (string * V)) (k : string) (v : V) :
  ~ In k (map fst d) -> dict_set d k v = d ++ [(k, v)].
Proof.
  induction d as [|[k' v'] d IH]; simpl; intros Hnotin; [reflexivity|].
  destruct (String.eqb_spec k' k) as [->|_].
  - exfalso. apply Hnotin. now left.
  - f_equal. apply IH. intros Hin. apply Hnotin. now right.
Qed.

(** [OrderedDict] of pairs with distinct keys keeps the pairs as they are. *)
Lemma OrderedDict_distinct (V : Type) (pairs : list (string * V)) :
  NoDup (map fst pairs) -> OrderedDict pairs = pairs.
Proof.
  unfold OrderedDict. intros Hnodup.
  enough (Hgen : forall acc,
             NoDup (map fst (acc ++ pairs)) ->
             fold_left (fun d kv => dict_set d (fst kv) (snd kv)) pairs acc
             = acc ++ pairs) by (apply (Hgen []); assumption).
  clear Hnodup. induction pairs as [|[k v] pairs IH]; simpl; intros acc Hnodup.
  - now rewrite app_nil_r.
  - rewrite dict_set_fresh.
    + rewrite IH; rewrite <- app_assoc; [reflexivity | assumption].
    + rewrite map_app in Hnodup. simpl in Hnodup.
      apply NoDup_remove_2 in Hnodup. intros Hin. apply Hnodup.
      apply in_or_app. now left.
Qed.

Lemma length_concat_sum (ls : list (list elem)) :
  length (concat ls) = list_sum (map (@length elem) ls).
Proof.
  induction ls as [|l ls IH]; simpl; [reflexivity|].
  now rewrite length_app, IH.
Qed.

(** The [i]-th of equally long blocks laid end to end. *)
Lemma nth_block_of_concat (m : nat) (ls : list (list elem)) (i : nat) :
  Forall (fun l => length l = m) ls ->
  i < length ls ->
  firstn m (skipn (i * m) (concat ls)) = nth i ls [].
Proof.
  intros Hall. revert i.
  induction Hall as [|l ls Hl _ IH]; simpl; intros i Hi; [lia|].
  destruct i as [|i]; simpl.
  - rewrite <- Hl. rewrite firstn_app, Nat.sub_diag, firstn_all. simpl.
    now rewrite app_nil_r.
  - rewrite skipn_app, (skipn_all2 l) by lia. simpl.
    replace (m + i * m - length l) with (i * m) by lia.
    apply IH. lia.
Qed.

Lemma np_cumsum_from_last (acc : nat) (l : list nat) :
  l <> [] ->
  removelast (np_cumsum_from acc l) ++ [acc + list_sum l] = np_cumsum_from acc l.
Proof.
  revert acc. induction l as [|x l IH]; intros acc Hne; [contradiction|].
  destruct l as [|y l].
  - simpl. f_equal. lia.
  - pose proof (IH (acc + x) ltac:(discriminate)) as IH'.
    replace (acc + list_sum (x :: y :: l)) with (acc + x + list_sum (y :: l))
      by (simpl; lia).
    change (np_cumsum_from acc (x :: y :: l))
      with ((acc + x) :: np_cumsum_from (acc + x) (y :: l)).
    remember (np_cumsum_from (acc + x) (y :: l)) as c eqn:Hc.
    destruct c as [|c0 c]; [simpl in Hc; discriminate|].
    change (removelast ((acc + x) :: c0 :: c))
      with ((acc + x) :: removelast (c0 :: c)).
    rewrite <- app_comm_cons. f_equal. exact IH'.
Qed.

(** Splitting a one-dimensional array that holds blocks end to end, at the
    running sums of their lengths, gives the blocks back. *)
Lemma sections_of_concat (shape : list nat) (n : nat) (ls : list (list elem)) :
  forall before : list elem,
    length before + length (concat ls) <= n ->
    sections (mk_array shape (before ++ concat ls)) n [] (length before)
             (np_cumsum_from (length before) (map (@length elem) ls))
    = map (@array1 elem) ls.
Proof.
  induction ls as [|l ls IH]; intros before Hn; simpl; [reflexivity|].
  simpl in Hn. rewrite length_app in Hn. f_equal.
  - unfold row_slice, array1. simpl.
    rewrite !Nat.min_l by lia.
    replace (length before + length l - length before) with (length l) by lia.
    rewrite !Nat.mul_1_r. f_equal.
    rewrite skipn_app, Nat.sub_diag, (skipn_all2 before) by lia. simpl.
    rewrite firstn_app, Nat.sub_diag, firstn_all. simpl. now rewrite app_nil_r.
  - specialize (IH (before ++ l)).
    rewrite length_app, <- app_assoc in IH. apply IH. lia.
Qed.

(** *** Dicts of boxes: the layout of the flat block *)

Lemma flat_space_boxes (spaces : list (string * Space)) :
  flat_space (Dict spaces) = true ->
  exists items,
    spaces = boxes items /\ items <> [] /\ NoDup (map fst items).
Proof.
  simpl. intros H.
  apply andb_true_iff in H. destruct H as [H Hbox].
  apply andb_true_iff in H. destruct H as [Hne Hnodup].
  apply nodupb_NoDup in Hnodup. unfold dict_keys in Hnodup.
  assert (Hitems : exists items, spaces = boxes items).
  { clear Hne Hnodup.
    induction spaces as [|[k s] spaces IH]; [now exists []|].
    simpl in Hbox. apply andb_true_iff in Hbox. destruct Hbox as [Hs Hrest].
    destruct s as [shape| | |]; try discriminate.
    destruct (IH Hrest) as [items ->]. now exists ((k, shape) :: items). }
  destruct Hitems as [items ->]. exists items. repeat split.
  - intros ->. discriminate.
  - unfold boxes in Hnodup. rewrite map_map in Hnodup. exact Hnodup.
Qed.

Lemma conforms_boxes (batch : list nat) (items : list (string * list nat))
  (o : Obs elem) :
  conforms batch (Dict (boxes items)) o ->
  exists arrays,
    o = ODict (named_arrays items arrays)
    /\ Forall2 (fun item a => arr_shape a = batch ++ snd item /\ wf_array a)
               items arrays.
Proof.
  destruct o as [a|d]; simpl; [contradiction|].
  revert d. induction items as [|[k shape] items IH]; intros [|[k' v] d] H;
    simpl in H; try contradiction.
  - exists []. split; [reflexivity | constructor].
  - destruct H as [Hk [Hv Hrest]]. subst k'.
    destruct v as [a|]; [|contradiction].
    destruct (IH d Hrest) as [arrays [Heq Hall]].
    exists (a :: arrays). split.
    + inversion Heq; subst. reflexivity.
    + constructor; assumption.
Qed.

Lemma sizes_of_boxes (items : list (string * list nat)) :
  mapM _packed_size (dict_values (boxes items))
  = Ok (map (fun item => np_prod (snd item)) items).
Proof.
  unfold dict_values, boxes.
  induction items as [|[k shape] items IH]; simpl; [reflexivity|].
  simpl in IH. now rewrite IH.
Qed.

Lemma np_concatenate_array1 (ls : list (list elem)) :
  ls <> [] ->
  np_concatenate (map (@array1 elem) ls) = Ok (array1 (concat ls)).
Proof.
  destruct ls as [|l ls]; [contradiction|]. intros _.
  unfold np_concatenate.
  change (map (@array1 elem) (l :: ls)) with (array1 l :: map (@array1 elem) ls).
  cbn [arr_shape array1].
  assert (Hall : forallb
            (fun b => shape_eqb (tl (arr_shape b)) [] && negb (Nat.eqb (ndim b) 0))
            (array1 l :: map (@array1 elem) ls) = true).
  { apply forallb_forall. intros b Hb.
    change (array1 l :: map (@array1 elem) ls)
      with (map (@array1 elem) (l :: ls)) in Hb.
    apply in_map_iff in Hb. destruct Hb as [l' [<- _]]. reflexivity. }
  rewrite Hall.
  change (array1 l :: map (@array1 elem) ls) with (map (@array1 elem) (l :: ls)).
  rewrite !map_map. cbn [arr_shape arr_data array1 hd].
  rewrite map_id. unfold array1. now rewrite length_concat_sum.
Qed.

(** Packing a dict of boxes lays the children end to end in the declared
    order, each one converted to float32 and flattened. *)
Lemma pack_array_boxes (obs : Obs elem) (items : list (string * list nat))
  (arrays : list (ndarray elem)) :
  items <> [] ->
  Forall2 (fun item a => getitem obs (fst item) = Ok (OArr a)) items arrays ->
  pack_array float32 obs (Dict (boxes items))
  = Ok (array1 (concat (map (fun a => map float32 (arr_data a)) arrays))).
Proof.
  intros Hne Hget. rewrite pack_array_Dict.
  assert (Hvalues :
    mapM (fun kv => child <- getitem obs (fst kv) ;;
                    pack_array float32 child (snd kv)) (boxes items)
    = Ok (map (@array1 elem) (map (fun a => map float32 (arr_data a)) arrays))).
  { clear Hne. induction Hget as [|[k shape] a items arrays Ha _ IH];
      [reflexivity|].
    simpl in *. rewrite Ha. simpl. now rewrite IH. }
  rewrite Hvalues. simpl. apply np_concatenate_array1.
  inversion Hget; subst; [contradiction | discriminate].
Qed.

(** Unpacking a block that holds one block per named box, end to end,
    against the dict of those boxes returns the blocks under their names,
    in the declared order, each with the shape of its box. *)
Lemma unpack_array_boxes (items : list (string * list nat))
  (blocks : list (list elem)) :
  items <> [] ->
  NoDup (map fst items) ->
  Forall2 (fun item block => length block = np_prod (snd item)) items blocks ->
  unpack_array (array1 (concat blocks)) (Dict (boxes items))
  = Ok (ODict (named_arrays items
                 (map (fun p => mk_array (snd (fst p)) (snd p))
                      (combine items blocks)))).
Proof.
  intros Hne Hnodup Hlen. cbn [unpack_array].
  rewrite sizes_of_boxes. cbn [bind].
  assert (Hsizes : map (fun item => np_prod (snd item)) items
                   = map (@length elem) blocks).
  { clear Hne Hnodup. induction Hlen as [|item block items blocks H _ IH];
      simpl; [reflexivity|]. now rewrite H, IH. }
  rewrite Hsizes. unfold np_split. cbn [arr_shape array1].
  assert (Hblocks : blocks <> []).
  { intros ->. inversion Hlen; subst. contradiction. }
  rewrite length_concat_sum. unfold np_cumsum.
  change (list_sum (map (@length elem) blocks))
    with (0 + list_sum (map (@length elem) blocks)) at 2.
  rewrite np_cumsum_from_last
    by (destruct blocks; [contradiction | discriminate]).
  pose proof (sections_of_concat
                [length (concat blocks)]
                (list_sum (map (@length elem) blocks)) blocks []) as Hsec.
  simpl in Hsec. unfold array1 at 1.
  rewrite Hsec by (rewrite length_concat_sum; lia).
  cbn [bind]. clear Hsec Hsizes Hblocks Hne.
  assert (Hzip :
    zipM (fun unpacked item => v <- unpack_array unpacked (snd item) ;;
                               Ok (fst item, v))
         (map (@array1 elem) blocks) (boxes items)
    = Ok (named_arrays items
            (map (fun p => mk_array (snd (fst p)) (snd p))
                 (combine items blocks)))).
  { clear Hnodup. induction Hlen as [|[k shape] block items blocks H _ IH];
      [reflexivity|].
    simpl in *. unfold np_reshape, reshape. simpl.
    rewrite H, Nat.eqb_refl. simpl. rewrite IH. reflexivity. }
  rewrite Hzip. cbn [bind]. rewrite OrderedDict_distinct; [reflexivity|].
  clear Hzip.
  assert (Hkeys : map fst (named_arrays items
                    (map (fun p => mk_array (snd (fst p)) (snd p))
                         (combine items blocks)))
                  = map fst items).
  { unfold named_arrays.
    clear Hnodup. induction Hlen as [|item block items blocks H _ IH];
      simpl; [reflexivity|]. now rewrite IH. }
  now rewrite Hkeys.
Qed.

Lemma getitem_named_arrays (items : list (string * list nat))
  (arrays : list (ndarray elem)) :
  NoDup (map fst items) ->
  length items = length arrays ->
  Forall2 (fun item a =>
             getitem (ODict (named_arrays items arrays)) (fst item) = Ok (OArr a))
          items arrays.
Proof.
  revert arrays. induction items as [|[k shape] items IH];
    intros [|a arrays] Hnodup Hlen; try discriminate; [constructor|].
  inversion Hnodup as [|? ? Hnotin Hnodup']; subst.
  constructor.
  - simpl. now rewrite String.eqb_refl.
  - eapply Forall2_weaken_in; [|apply IH; [assumption | now inversion Hlen]].
    intros [k1 shape1] a1 Hin Hget. unfold named_arrays in *. simpl in *.
    destruct (String.eqb_spec k k1) as [->|_]; [|assumption].
    exfalso. apply Hnotin. change k1 with (fst (k1, shape1)). now apply in_map.
Qed.

(** C4 on dicts of boxes.  The packed block is the children end to end in
    the declared order, so it starts with the first child's content, and
    unpacking it returns the consecutive sub-blocks under the declared keys,
    in that order. *)
Lemma dict_of_boxes_layout (items : list (string * list nat))
  (arrays : list (ndarray elem)) :
  items <> [] ->
  NoDup (map fst items) ->
  Forall2 (fun item a => arr_shape a = snd item /\ wf_array a) items arrays ->
  let blocks := map (fun a => map float32 (arr_data a)) arrays in
  let unpacked :=
    named_arrays items
      (map (fun p => mk_array (snd (fst p)) (snd p)) (combine items blocks)) in
  pack_array float32 (ODict (named_arrays items arrays)) (Dict (boxes items))
  = Ok (array1 (concat blocks))
  /\ firstn (np_prod (snd (hd (""%string, []) items))) (concat blocks)
     = hd [] blocks
  /\ unpack_array (array1 (concat blocks)) (Dict (boxes items)) = Ok (ODict unpacked)
  /\ dict_keys unpacked = map fst items.
Proof.
  intros Hne Hnodup Hall blocks unpacked.
  assert (Hlen : Forall2 (fun item block => length block = np_prod (snd item))
                         items blocks).
  { subst blocks. apply Forall2_map_right.
    eapply Forall2_weaken_in; [|exact Hall].
    intros item a _ [Hshape Hwf]. simpl.
    rewrite length_map, Hwf. now rewrite Hshape. }
  split; [|split; [|split]].
  - apply pack_array_boxes; [assumption|].
    apply getitem_named_arrays; [assumption|].
    eapply Forall2_length; eassumption.
  - clear Hlen unpacked. subst blocks.
    destruct Hall as [|item a items' arrays' [Hshape Hwf] _]; [contradiction|].
    simpl. rewrite <- Hshape, <- Hwf, <- (length_map float32).
    rewrite firstn_app, Nat.sub_diag, firstn_all. simpl. now rewrite app_nil_r.
  - now apply unpack_array_boxes.
  - subst unpacked. unfold dict_keys, named_arrays. clear Hne Hnodup Hall.
    induction Hlen as [|item block items' blocks' _ _ IH]; simpl; [reflexivity|].
    now rewrite IH.
Qed.

(** C3 on spaces with at most one level of nesting: unpacking what was
    packed gives the observation back, its elements converted to float32. *)
Lemma flat_round_trip (space : Space) (obs : Obs elem) :
  flat_space space = true ->
  conforms [] space obs ->
  exists packed,
    pack_array float32 obs space = Ok packed
    /\ unpack_array packed space = Ok (obs_map float32 obs).
Proof.
  destruct space as [shape|spaces|n|members]; intros Hflat Hobs;
    try discriminate.
  - destruct obs as [a|d]; simpl in Hobs; [|contradiction].
    destruct Hobs as [Hshape Hwf]. eexists. split; [reflexivity|].
    simpl. unfold np_reshape, reshape. simpl.
    rewrite length_map, Hwf, Hshape, Nat.eqb_refl. reflexivity.
  - destruct (flat_space_boxes spaces Hflat) as [items [-> [Hne Hnodup]]].
    destruct (conforms_boxes [] items obs Hobs) as [arrays [-> Hall]].
    simpl in Hall.
    destruct (dict_of_boxes_layout items arrays Hne Hnodup Hall)
      as [Hpack [_ [Hunpack _]]].
    eexists. split; [exact Hpack|]. rewrite Hunpack. do 2 f_equal.
    unfold named_arrays. clear Hpack Hunpack Hne Hnodup Hflat Hobs.
    induction Hall as [|[k shape] a items arrays [Hshape _] _ IH];
      simpl; [reflexivity|].
    simpl in Hshape. rewrite Hshape. simpl in IH. injection IH as IH.
    now rewrite IH.
Qed.

(** C2 on boxes: the size of a box is the length of what packs into it. *)
Lemma box_size_is_packed_length (shape : list nat) (obs : Obs elem) :
  conforms [] (Box shape) obs ->
  exists packed,
    pack_array float32 obs (Box shape) = Ok packed
    /\ _packed_size (Box shape) = Ok (length (arr_data packed))
    /\ arr_shape packed = [np_prod shape].
Proof.
  destruct obs as [a|d]; simpl; [|contradiction].
  intros [Hshape Hwf]. eexists. split; [reflexivity|].
  simpl. rewrite length_map, Hwf, Hshape. split; reflexivity.
Qed.

(** *** The equations of the tensor functions *)

Lemma select_shape (obs slice : ndarray elem) (b : nat) :
  select obs b = Ok slice ->
  exists n, arr_shape obs = n :: arr_shape slice /\ b < n.
Proof.
  unfold select. destruct (arr_shape obs) as [|n trailing]; [discriminate|].
  destruct (Nat.ltb_spec b n) as [Hb|Hb]; [|discriminate].
  intros Heq. inversion Heq; subst. exists n. now split.
Qed.

Lemma select_in_range (obs : ndarray elem) (n : nat) (trailing : list nat) (b : nat) :
  arr_shape obs = n :: trailing -> b < n ->
  exists slice, select obs b = Ok slice /\ arr_shape slice = trailing.
Proof.
  intros Hshape Hb. unfold select. rewrite Hshape.
  destruct (Nat.ltb_spec b n); [|lia]. eexists. split; reflexivity.
Qed.

(** [unpack_tensor] as the source has it: the test on [obs.ndim] picks the
    batched or the single function. *)
Lemma unpack_tensor_unfold (obs : ndarray elem) (space : Space) :
  unpack_tensor obs space =
  if Nat.ltb 1 (ndim obs)
  then _unpack_tensor_batched obs space
  else _unpack_tensor_single obs space.
Proof.
  unfold unpack_tensor, _unpack_tensor_batched, ndim.
  destruct (arr_shape obs) as [|n [|m trailing]] eqn:Hshape; try reflexivity.
  cbn [length Nat.ltb Nat.leb unpack_by_rank].
  destruct (size0 obs) as [batch_size|e]; [|reflexivity]. cbn [bind].
  f_equal. apply mapM_ext_in. intros b _.
  destruct (select obs b) as [slice|e] eqn:Hslice; [|reflexivity]. cbn [bind].
  apply select_shape in Hslice. destruct Hslice as [n' [Hn' _]].
  rewrite Hshape in Hn'. inversion Hn' as [[Hn Htrailing]].
  unfold unpack_tensor, ndim. rewrite <- Htrailing. reflexivity.
Qed.

(** The children of a [Dict] go through [unpack_tensor]. *)
Lemma _unpack_tensor_single_Dict (obs : ndarray elem)
  (spaces : list (string * Space)) :
  _unpack_tensor_single obs (Dict spaces) =
  (sizes <- mapM _packed_size (dict_values spaces) ;;
   split_packed <- torch_split obs sizes ;;
   split_unpacked <-
     zipM (fun unpacked item => v <- unpack_tensor unpacked (snd item) ;;
                                Ok (fst item, v)) split_packed spaces ;;
   Ok (ODict (OrderedDict split_unpacked))).
Proof. reflexivity. Qed.

Lemma _unpack_tensor_batched_unfold (obs : ndarray elem) (space : Space) :
  _unpack_tensor_batched obs space =
  (batch_size <- size0 obs ;;
   unpacked <- mapM (fun b => slice <- select obs b ;; unpack_tensor slice space)
                    (seq 0 batch_size) ;;
   _merge_unpacked_batch unpacked).
Proof. reflexivity. Qed.

(** *** Observations that conform to a space *)

Lemma conforms_Dict (batch : list nat) (spaces : list (string * Space))
  (d : list (string * Obs elem)) :
  conforms batch (Dict spaces) (ODict d) <->
  Forall2 (fun item kv => fst item = fst kv /\ conforms batch (snd item) (snd kv))
          spaces d.
Proof.
  simpl. revert d. induction spaces as [|[k s] spaces IH]; intros [|[k' v] d];
    split; intros H.
  - constructor.
  - exact I.
  - contradiction.
  - inversion H.
  - contradiction.
  - inversion H.
  - destruct H as [Hk [Hv Hrest]]. constructor; [now split | now apply IH].
  - inversion H as [|? ? ? ? [Hk Hv] Hrest]; subst. simpl in Hk.
    repeat split; try assumption. now apply IH.
Qed.

Lemma conforms_Dict_inv (batch : list nat) (spaces : list (string * Space))
  (o : Obs elem) :
  conforms batch (Dict spaces) o ->
  exists d, o = ODict d
    /\ Forall2 (fun item kv => fst item = fst kv
                               /\ conforms batch (snd item) (snd kv)) spaces d.
Proof.
  destruct o as [a|d]; [simpl; contradiction|].
  intros H. exists d. split; [reflexivity | now apply conforms_Dict].
Qed.

Lemma conforms_Box_inv (batch shape : list nat) (o : Obs elem) :
  conforms batch (Box shape) o ->
  exists a, o = OArr a /\ arr_shape a = batch ++ shape /\ wf_array a.
Proof.
  destruct o as [a|d]; simpl; [|contradiction]. intros H. now exists a.
Qed.

(** The children of a conforming dict, found by key. *)
Lemma conforms_children (batch : list nat) (spaces : list (string * Space))
  (o : Obs elem) :
  NoDup (dict_keys spaces) ->
  conforms batch (Dict spaces) o ->
  (forall item, In item spaces ->
     exists v, child_of (fst item) o = Ok v /\ conforms batch (snd item) v)
  /\ o = ODict (map (fun item => (fst item, child_or (fst item) o)) spaces).
Proof.
  intros Hnodup Hconf.
  destruct (conforms_Dict_inv batch spaces o Hconf) as [d [-> Hall]].
  assert (Hpos : Forall2 (fun item kv => dict_get d (fst item) = Some (snd kv)
                                         /\ fst item = fst kv
                                         /\ conforms batch (snd item) (snd kv))
                         spaces d).
  { apply Forall2_and; [|exact Hall].
    apply dict_get_positional; [exact Hnodup|].
    eapply Forall2_weaken_in; [|exact Hall]. now intros ? ? _ [? _]. }
  clear Hall Hconf Hnodup. split.
  - intros item Hin.
    destruct (Forall2_in_left _ _ _ _ _ item Hpos Hin) as [kv [_ [Hget [_ Hv]]]].
    exists (snd kv). simpl. now rewrite Hget.
  - f_equal. symmetry. apply Forall2_map_eq.
    eapply Forall2_weaken_in; [|exact Hpos].
    intros item [k v] _ [Hget [Hk _]]. unfold child_or. simpl in *.
    now rewrite Hget, Hk.
Qed.

(** *** Stacking conforming observations *)

Lemma shape_eqb_refl (shape : list nat) : shape_eqb shape shape = true.
Proof. unfold shape_eqb. now destruct (list_eq_dec Nat.eq_dec shape shape). Qed.

Lemma length_concat_uniform (m : nat) (ls : list (list elem)) :
  Forall (fun l => length l = m) ls -> length (concat ls) = length ls * m.
Proof.
  induction 1 as [|l ls Hl _ IH]; simpl; [reflexivity|].
  now rewrite length_app, Hl, IH.
Qed.

Lemma torch_stack_uniform (shape : list nat) (arrays : list (ndarray elem)) :
  arrays <> [] ->
  Forall (fun a => arr_shape a = shape) arrays ->
  torch_stack arrays
  = Ok (mk_array (length arrays :: shape) (concat (map (@arr_data elem) arrays))).
Proof.
  intros Hne Hall. unfold torch_stack.
  destruct arrays as [|t rest]; [contradiction|].
  assert (Ht : arr_shape t = shape) by now inversion Hall.
  assert (Hsame : forallb (fun u => shape_eqb (arr_shape u) (arr_shape t))
                          (t :: rest) = true).
  { apply forallb_forall. intros u Hu. rewrite Forall_forall in Hall.
    rewrite (Hall u Hu), Ht. apply shape_eqb_refl. }
  rewrite Hsame, Ht. reflexivity.
Qed.

(** Slice [i] of a stack is the [i]-th tensor stacked. *)
Lemma select_stacked (shape : list nat) (arrays : list (ndarray elem))
  (i : nat) (default : ndarray elem) :
  Forall (fun a => arr_shape a = shape /\ wf_array a) arrays ->
  i < length arrays ->
  select (mk_array (length arrays :: shape)
                   (concat (map (@arr_data elem) arrays))) i
  = Ok (nth i arrays default).
Proof.
  intros Hall Hi. unfold select. cbn [arr_shape arr_data].
  destruct (Nat.ltb_spec i (length arrays)) as [_|Hge]; [|lia].
  f_equal.
  rewrite nth_block_of_concat.
  - rewrite (nth_indep _ [] (arr_data default)) by (now rewrite length_map).
    rewrite map_nth.
    rewrite Forall_forall in Hall.
    destruct (Hall (nth i arrays default) (nth_In _ _ Hi)) as [Hshape _].
    destruct (nth i arrays default) as [sh data]. simpl in *. now subst.
  - apply Forall_map. eapply Forall_impl; [|exact Hall].
    intros a [Hshape Hwf]. simpl. rewrite Hwf. now rewrite Hshape.
  - now rewrite length_map.
Qed.

Lemma conforms_Box_list (batch shape : list nat) (obs_list : list (Obs elem)) :
  Forall (conforms batch (Box shape)) obs_list ->
  exists arrays,
    obs_list = map (@OArr elem) arrays
    /\ Forall (fun a => arr_shape a = batch ++ shape /\ wf_array a) arrays.
Proof.
  induction 1 as [|o obs_list Ho _ [arrays [-> Hall]]].
  - exists []. split; [reflexivity | constructor].
  - destruct (conforms_Box_inv _ _ _ Ho) as [a [-> Ha]].
    exists (a :: arrays). split; [reflexivity | now constructor].
Qed.

Lemma mapM_leaf_of (arrays : list (ndarray elem)) :
  mapM (@leaf_of elem) (map (@OArr elem) arrays) = Ok arrays.
Proof.
  induction arrays as [|a arrays IH]; simpl; [reflexivity|]. now rewrite IH.
Qed.

Lemma mapM_child_of (k : string) (obs_list : list (Obs elem)) :
  (forall o, In o obs_list -> exists v, child_of k o = Ok v) ->
  mapM (child_of k) obs_list = Ok (map (child_or k) obs_list).
Proof.
  induction obs_list as [|o obs_list IH]; intros Hall; simpl; [reflexivity|].
  destruct (Hall o (or_introl eq_refl)) as [v Hv].
  unfold child_or at 1. rewrite Hv. simpl.
  rewrite IH; [reflexivity|]. intros o' Ho'. apply Hall. now right.
Qed.

Lemma stack_items (batch : list nat) (obs_list : list (Obs elem))
  (items : list (string * Space)) (d : list (string * Obs elem)) :
  obs_list <> [] ->
  Forall (fun item => stacks_well elem batch (snd item)) items ->
  Forall2 (fun item kv => fst item = fst kv /\ conforms batch (snd item) (snd kv))
          items d ->
  (forall item o, In item items -> In o obs_list ->
     exists v, child_of (fst item) o = Ok v /\ conforms batch (snd item) v) ->
  exists merged,
    mapM (fun item => subs <- mapM (child_of (fst item)) obs_list ;;
                      m <- stack_leaves (snd item) subs ;;
                      Ok (fst item, m)) d = Ok merged
    /\ Forall2 (fun item kv =>
                  fst item = fst kv
                  /\ conforms (length obs_list :: batch) (snd item) (snd kv))
               items merged
    /\ forall i default,
         i < length obs_list ->
         mapM (fun item => v <- obs_select (snd item) i ;; Ok (fst item, v)) merged
         = Ok (map (fun item =>
                      (fst item, child_or (fst item) (nth i obs_list default)))
                   items).
Proof.
  intros Hne Hwell Hd. revert Hwell.
  induction Hd as [|[k s] [k' t] items d [Hk Ht] _ IH]; intros Hwell Hchildren.
  - exists []. split; [reflexivity|]. split; [constructor|]. reflexivity.
  - simpl in Hk, Ht. subst k'.
    inversion Hwell as [|? ? Hs Hwell']; subst. simpl in Hs.
    assert (Hsubs : forall o, In o obs_list ->
                       exists v, child_of k o = Ok v /\ conforms batch s v).
    { intros o Ho. apply (Hchildren (k, s) o); [now left | assumption]. }
    destruct (Hs t (map (child_or k) obs_list)) as [R [HR [HconfR HselR]]].
    + destruct obs_list; [contradiction | discriminate].
    + exact Ht.
    + apply Forall_map, Forall_forall. intros o Ho.
      destruct (Hsubs o Ho) as [v [Hv Hconf]]. unfold child_or. now rewrite Hv.
    + destruct IH as [merged [Hmerged [Hconf Hsel]]]; [assumption| |].
      { intros item o Hitem Ho. apply Hchildren; [now right | assumption]. }
      exists ((k, R) :: merged). split; [|split].
      * cbn [mapM fst snd]. rewrite mapM_child_of.
        -- cbn [bind]. rewrite HR. cbn [bind]. rewrite Hmerged. reflexivity.
        -- intros o Ho. destruct (Hsubs o Ho) as [v [Hv _]]. now exists v.
      * constructor; [|exact Hconf]. simpl. split; [reflexivity|].
        now rewrite length_map in HconfR.
      * intros i default Hi. cbn [mapM fst snd map].
        rewrite HselR by (now rewrite length_map). cbn [bind].
        rewrite (Hsel i default Hi). cbn [bind]. do 3 f_equal.
        rewrite (nth_indep _ t (child_or k default)) by (now rewrite length_map).
        apply map_nth.
Qed.

(** Stacking observations that conform to one space, with the same batch
    dimensions, succeeds; every leaf of the result gains the number of
    observations as its leading dimension, and index [i] of the result is
    the [i]-th observation. *)
Lemma stack_leaves_conforms (space : Space) :
  wf_space space = true -> forall batch, stacks_well elem batch space.
Proof.
  induction space as [shape|spaces IH|n|members _] using Space_nested_ind;
    intros Hwf batch template obs_list Hne Ht Hall.
  - destruct (conforms_Box_inv _ _ _ Ht) as [t [-> _]].
    destruct (conforms_Box_list _ _ _ Hall) as [arrays [-> Harrays]].
    cbn [stack_leaves]. rewrite mapM_leaf_of. cbn [bind].
    rewrite (torch_stack_uniform (batch ++ shape)).
    + cbn [bind]. eexists. split; [reflexivity|]. split.
      * simpl. rewrite length_map. split; [reflexivity|].
        unfold wf_array. cbn [arr_data arr_shape np_prod fold_right].
        rewrite (length_concat_uniform (np_prod (batch ++ shape))).
        -- now rewrite length_map.
        -- apply Forall_map. eapply Forall_impl; [|exact Harrays].
           intros a [Hshape Hwf']. simpl. rewrite Hwf'. now rewrite Hshape.
      * intros i Hi. rewrite length_map in Hi. cbn [obs_select].
        rewrite (select_stacked (batch ++ shape) arrays i t Harrays Hi).
        cbn [bind]. f_equal. symmetry. apply (map_nth (@OArr elem)).
    + intros ->. now apply Hne.
    + eapply Forall_impl; [|exact Harrays]. now intros a [? _].
  - simpl in Hwf. apply andb_true_iff in Hwf. destruct Hwf as [Hnodup Hwfs].
    apply nodupb_NoDup in Hnodup.
    destruct (conforms_Dict_inv _ _ _ Ht) as [d [-> Hd]].
    assert (Hwell : Forall (fun item => stacks_well elem batch (snd item)) spaces).
    { rewrite Forall_forall in *. rewrite forallb_forall in Hwfs.
      intros item Hitem. apply IH; [assumption | now apply Hwfs]. }
    assert (Hchildren : forall item o, In item spaces -> In o obs_list ->
              exists v, child_of (fst item) o = Ok v
                        /\ conforms batch (snd item) v).
    { intros item o Hitem Ho. rewrite Forall_forall in Hall.
      destruct (conforms_children batch spaces o Hnodup (Hall o Ho)) as [Hc _].
      now apply Hc. }
    destruct (stack_items batch obs_list spaces d Hne Hwell Hd Hchildren)
      as [merged [Hmerged [Hconf Hsel]]].
    cbn [stack_leaves]. rewrite Hmerged. cbn [bind].
    eexists. split; [reflexivity|]. split.
    + now apply conforms_Dict.
    + intros i Hi. cbn [obs_select]. rewrite (Hsel i (ODict d) Hi). cbn [bind].
      f_equal. rewrite Forall_forall in Hall.
      destruct (conforms_children batch spaces (nth i obs_list (ODict d)) Hnodup
                  (Hall _ (nth_In _ _ Hi))) as [_ Heq].
      now rewrite <- Heq.
  - destruct template; simpl in Ht; contradiction.
  - destruct template; simpl in Ht; contradiction.
Qed.

Lemma conforms_same_structure (space : Space) :
  wf_space space = true ->
  forall (batch : list nat) (o1 o2 : Obs elem),
    conforms batch space o1 -> conforms batch space o2 ->
    same_structure o1 o2 = true.
Proof.
  induction space as [shape|spaces IH|n|members _] using Space_nested_ind;
    intros Hwf batch o1 o2 H1 H2.
  - destruct (conforms_Box_inv _ _ _ H1) as [a1 [-> _]].
    destruct (conforms_Box_inv _ _ _ H2) as [a2 [-> _]]. reflexivity.
  - simpl in Hwf. apply andb_true_iff in Hwf. destruct Hwf as [Hnodup Hwfs].
    apply nodupb_NoDup in Hnodup.
    destruct (conforms_children batch spaces o2 Hnodup H2) as [Hc _].
    destruct (conforms_Dict_inv _ _ _ H1) as [d1 [-> Hd1]].
    destruct (conforms_Dict_inv _ _ _ H2) as [d2 [-> Hd2]].
    cbn [same_structure]. apply andb_true_iff. split.
    + apply Nat.eqb_eq.
      rewrite <- (Forall2_length Hd1). apply (Forall2_length Hd2).
    + apply forallb_forall. intros [k sub1] Hin.
      destruct (Forall2_in_right _ _ _ _ _ _ Hd1 Hin) as [item [Hitem [Hk Hsub1]]].
      simpl in Hk, Hsub1. subst k.
      destruct (Hc item Hitem) as [sub2 [Hget Hsub2]].
      simpl in Hget. cbn [fst snd].
      destruct (dict_get d2 (fst item)) as [v|]; [|discriminate].
      inversion Hget; subst v.
      rewrite Forall_forall in IH. rewrite forallb_forall in Hwfs.
      apply (IH item Hitem (Hwfs item Hitem) batch); assumption.
  - destruct o1; simpl in H1; contradiction.
  - destruct o1; simpl in H1; contradiction.
Qed.

(** Merging a batch of observations that conform to one space. *)
Lemma _merge_unpacked_batch_conforms (space : Space) (batch : list nat)
  (obs_list : list (Obs elem)) :
  wf_space space = true ->
  obs_list <> [] ->
  Forall (conforms batch space) obs_list ->
  exists R,
    _merge_unpacked_batch obs_list = Ok R
    /\ conforms (length obs_list :: batch) space R
    /\ forall i default,
         i < length obs_list -> obs_select R i = Ok (nth i obs_list default).
Proof.
  intros Hwf Hne Hall. unfold _merge_unpacked_batch.
  destruct obs_list as [|first others]; [contradiction|].
  assert (Hsame : forallb (same_structure first) others = true).
  { apply forallb_forall. intros o Ho. rewrite Forall_forall in Hall.
    apply (conforms_same_structure space Hwf batch);
      apply Hall; [now left | now right]. }
  rewrite Hsame.
  assert (Htemplate : conforms batch space first).
  { rewrite Forall_forall in Hall. apply Hall. now left. }
  destruct (stack_leaves_conforms space Hwf batch _ _ Hne Htemplate Hall)
    as [R [HR [Hconf Hsel]]].
  exists R. split; [exact HR|]. split; [exact Hconf|].
  intros i default Hi. rewrite (Hsel i Hi). f_equal. now apply nth_indep.
Qed.

(** *** What the tensor functions return *)

Lemma chunks_spec (a : ndarray elem) (n : nat) (trailing : list nat)
  (sizes : list nat) :
  forall start,
    length (chunks a n trailing start sizes) = length sizes
    /\ Forall (fun piece => ndim piece = S (length trailing))
              (chunks a n trailing start sizes).
Proof.
  induction sizes as [|size sizes IH]; intros start; simpl.
  - split; [reflexivity | constructor].
  - destruct (IH (start + size)) as [Hlen Hall]. split; [now rewrite Hlen|].
    constructor; [reflexivity | assumption].
Qed.

(** Without a batch dimension, what [_unpack_tensor_single] returns is a
    valid structured observation of the space. *)
Lemma _unpack_tensor_single_conforms (space : Space) :
  wf_space space = true ->
  forall (obs : ndarray elem) (unpacked : Obs elem),
    ndim obs <= 1 ->
    _unpack_tensor_single obs space = Ok unpacked ->
    conforms [] space unpacked.
Proof.
  induction space as [shape|spaces IH|n|members _] using Space_nested_ind;
    intros Hwf obs unpacked Hrank H; try discriminate.
  - simpl in H. unfold torch_reshape, reshape in H.
    destruct (Nat.eqb_spec (length (arr_data obs)) (np_prod shape)) as [Hlen|];
      [|discriminate].
    inversion H; subst. simpl. now split.
  - simpl in Hwf. apply andb_true_iff in Hwf. destruct Hwf as [Hnodup Hwfs].
    apply nodupb_NoDup in Hnodup.
    rewrite _unpack_tensor_single_Dict in H.
    apply bind_Ok_inv in H. destruct H as [sizes [Hsizes H]].
    apply bind_Ok_inv in H. destruct H as [pieces [Hpieces H]].
    apply bind_Ok_inv in H. destruct H as [pairs [Hpairs H]].
    inversion H; subst unpacked. clear H.
    apply mapM_Ok_length in Hsizes. unfold dict_values in Hsizes.
    rewrite length_map in Hsizes.
    unfold torch_split in Hpieces.
    destruct (arr_shape obs) as [|n trailing] eqn:Hshape; [discriminate|].
    destruct (Nat.eqb (list_sum sizes) n); [|discriminate].
    inversion Hpieces; subst pieces. clear Hpieces.
    assert (Htrailing : trailing = []).
    { unfold ndim in Hrank. rewrite Hshape in Hrank. simpl in Hrank.
      destruct trailing; [reflexivity | simpl in Hrank; lia]. }
    subst trailing.
    destruct (chunks_spec obs n [] sizes 0) as [Hlen Hranks].
    apply zipM_Ok_Forall2 in Hpairs; [|congruence].
    assert (Hconf : Forall2 (fun item kv => fst item = fst kv
                                /\ conforms [] (snd item) (snd kv)) spaces pairs).
    { rewrite Forall_forall in IH, Hranks. rewrite forallb_forall in Hwfs.
      eapply Forall2_weaken_in; [|exact Hpairs].
      intros item kv Hitem [piece [Hpiece Hv]]. simpl in Hv.
      apply bind_Ok_inv in Hv. destruct Hv as [v [Hv Hkv]].
      inversion Hkv; subst kv. simpl. split; [reflexivity|].
      rewrite unpack_tensor_unfold, (Hranks piece Hpiece) in Hv. simpl in Hv.
      apply (IH item Hitem (Hwfs item Hitem) piece v); [|exact Hv].
      rewrite (Hranks piece Hpiece). simpl. lia. }
    rewrite OrderedDict_distinct.
    + now apply conforms_Dict.
    + assert (Hkeys : map fst pairs = map fst spaces).
      { clear -Hconf. induction Hconf as [|item kv spaces pairs [Hk _] _ IH'];
          simpl; [reflexivity|]. now rewrite Hk, IH'. }
      now rewrite Hkeys.
Qed.

(** What [unpack_tensor] returns conforms to the space, with the leading
    dimensions of the input as batch dimensions. *)
Lemma unpack_tensor_conforms (space : Space) :
  wf_space space = true ->
  forall (shape : list nat) (obs : ndarray elem) (unpacked : Obs elem),
    arr_shape obs = shape ->
    unpack_tensor obs space = Ok unpacked ->
    conforms (removelast shape) space unpacked.
Proof.
  intros Hwf shape.
  induction shape as [|n shape IH]; intros obs unpacked Hshape H.
  - rewrite unpack_tensor_unfold in H. unfold ndim in H. rewrite Hshape in H.
    simpl in *. apply (_unpack_tensor_single_conforms space Hwf obs); [|exact H].
    unfold ndim. rewrite Hshape. simpl. lia.
  - destruct shape as [|m trailing].
    + rewrite unpack_tensor_unfold in H. unfold ndim in H. rewrite Hshape in H.
      simpl in *. apply (_unpack_tensor_single_conforms space Hwf obs); [|exact H].
      unfold ndim. rewrite Hshape. simpl. lia.
    + rewrite unpack_tensor_unfold in H. unfold ndim in H. rewrite Hshape in H.
      cbn [length Nat.ltb Nat.leb] in H.
      rewrite _unpack_tensor_batched_unfold in H.
      unfold size0 in H. rewrite Hshape in H. cbn [bind] in H.
      apply bind_Ok_inv in H. destruct H as [obs_list [Hlist Hmerge]].
      assert (Hall : Forall (conforms (removelast (m :: trailing)) space) obs_list).
      { apply mapM_Ok_Forall2 in Hlist. apply Forall_forall. intros o Ho.
        destruct (Forall2_in_right _ _ _ _ _ _ Hlist Ho) as [b [_ Hb]].
        apply bind_Ok_inv in Hb. destruct Hb as [slice [Hslice Hb]].
        apply select_shape in Hslice. destruct Hslice as [n' [Hn' _]].
        rewrite Hshape in Hn'. inversion Hn'; subst.
        apply (IH slice o); [symmetry; assumption | exact Hb]. }
      assert (Hne : obs_list <> []).
      { intros ->. simpl in Hmerge. discriminate. }
      destruct (_merge_unpacked_batch_conforms space _ obs_list Hwf Hne Hall)
        as [R [HR [Hconf _]]].
      rewrite HR in Hmerge. inversion Hmerge; subst R.
      apply mapM_Ok_length in Hlist. rewrite length_seq in Hlist.
      rewrite Hlist in Hconf. exact Hconf.
Qed.

(** A batch of no slices: nothing to merge, [tree.map_structure] raises. *)
Lemma unpack_tensor_empty_batch (obs : ndarray elem) (space : Space)
  (trailing : list nat) :
  arr_shape obs = 0 :: trailing -> trailing <> [] ->
  unpack_tensor obs space = Raise ValueError.
Proof.
  intros Hshape Htrailing. rewrite unpack_tensor_unfold.
  unfold ndim. rewrite Hshape.
  destruct trailing as [|m trailing]; [contradiction|].
  cbn [length Nat.ltb Nat.leb]. rewrite _unpack_tensor_batched_unfold.
  unfold size0. rewrite Hshape. reflexivity.
Qed.

(** C5: [unpack_tensor] on a block with or without a batch dimension.
    Without one (rank at most 1) it is [_unpack_tensor_single].  With one
    it is [_unpack_tensor_batched]: every slice along the leading dimension
    is unpacked on its own and the results are merged.  When the [N]
    slices, [N] at least one, unpack to [per_slice 0 .. per_slice (N-1)],
    the batched result has the nesting of the space, each of its leaves
    carries [N] as a new leading dimension in front of the dimensions of
    the corresponding leaf of the slices, and its index [i] along that
    dimension is [per_slice i]; for a block of rank 2 the slices are
    unpacked by [_unpack_tensor_single]. *)
Theorem unpack_tensor_batch (obs : ndarray elem) (space : Space) :
  (ndim obs <= 1 -> unpack_tensor obs space = _unpack_tensor_single obs space)
  /\ (1 < ndim obs ->
      unpack_tensor obs space = _unpack_tensor_batched obs space
      /\ _unpack_tensor_batched obs space
         = (batch_size <- size0 obs ;;
            unpacked <-
              mapM (fun b => slice <- select obs b ;; unpack_tensor slice space)
                   (seq 0 batch_size) ;;
            _merge_unpacked_batch unpacked))
  /\ (forall (N : nat) (trailing : list nat) (per_slice : nat -> Obs elem),
         wf_space space = true ->
         arr_shape obs = N :: trailing -> trailing <> [] -> 0 < N ->
         (forall i slice, i < N -> select obs i = Ok slice ->
                          unpack_tensor slice space = Ok (per_slice i)) ->
         exists R,
           unpack_tensor obs space = Ok R
           /\ conforms (N :: removelast trailing) space R
           /\ (forall i, i < N ->
                 conforms (removelast trailing) space (per_slice i)
                 /\ obs_select R i = Ok (per_slice i)
                 /\ (ndim obs = 2 ->
                     forall slice, select obs i = Ok slice ->
                       _unpack_tensor_single slice space = Ok (per_slice i)))).
Proof.
  split; [|split].
  - intros Hrank. rewrite unpack_tensor_unfold.
    destruct (Nat.ltb_spec 1 (ndim obs)); [lia | reflexivity].
  - intros Hrank. split; [|reflexivity]. rewrite unpack_tensor_unfold.
    destruct (Nat.ltb_spec 1 (ndim obs)); [reflexivity | lia].
  - intros N trailing per_slice Hwf Hshape Htrailing HN Hslices.
    assert (Hrank : 1 < ndim obs).
    { unfold ndim. rewrite Hshape. destruct trailing; [contradiction|].
      simpl. lia. }
    assert (Hlist :
      mapM (fun b => slice <- select obs b ;; unpack_tensor slice space) (seq 0 N)
      = Ok (map per_slice (seq 0 N))).
    { apply Forall2_mapM_Ok, Forall2_map_right, Forall2_diag.
      intros b Hb. apply in_seq in Hb.
      destruct (select_in_range obs N trailing b Hshape) as [slice [Hslice _]];
        [lia|].
      rewrite Hslice. cbn [bind]. apply (Hslices b slice); [lia | exact Hslice]. }
    assert (Hconf : forall i, i < N ->
                      conforms (removelast trailing) space (per_slice i)).
    { intros i Hi.
      destruct (select_in_range obs N trailing i Hshape Hi) as [slice [Hslice Hsh]].
      apply (unpack_tensor_conforms space Hwf trailing slice (per_slice i) Hsh).
      now apply (Hslices i slice). }
    destruct (_merge_unpacked_batch_conforms space (removelast trailing)
                (map per_slice (seq 0 N)) Hwf) as [R [HR [HconfR Hsel]]].
    + destruct N; [lia | discriminate].
    + apply Forall_map, Forall_forall. intros b Hb. apply in_seq in Hb.
      apply Hconf. lia.
    + rewrite length_map, length_seq in HconfR, Hsel.
      exists R. split; [|split; [exact HconfR|]].
      * rewrite unpack_tensor_unfold.
        destruct (Nat.ltb_spec 1 (ndim obs)); [|lia].
        rewrite _unpack_tensor_batched_unfold. unfold size0. rewrite Hshape.
        cbn [bind]. rewrite Hlist. exact HR.
      * intros i Hi. split; [now apply Hconf|]. split.
        -- rewrite (Hsel i (per_slice 0) Hi). f_equal.
           rewrite map_nth, seq_nth by assumption. reflexivity.
        -- intros Htwo slice Hslice.
           rewrite <- (Hslices i slice Hi Hslice).
           rewrite unpack_tensor_unfold.
           apply select_shape in Hslice. destruct Hslice as [n' [Hn' _]].
           unfold ndim in Htwo |- *. rewrite Hn' in Htwo. simpl in Htwo.
           destruct (Nat.ltb_spec 1 (length (arr_shape slice))); [lia | reflexivity].
Qed.

(** *** [forward] *)

Lemma concat_blocks (m : nat) :
  forall (N : nat) (l : list elem),
    length l = N * m ->
    concat (map (fun b => firstn m (skipn (b * m) l)) (seq 0 N)) = l.
Proof.
  induction N as [|N IH]; intros l Hl.
  - destruct l; [reflexivity | discriminate].
  - cbn [seq map concat]. rewrite <- seq_shift, map_map.
    rewrite (map_ext _ (fun b => firstn m (skipn (b * m) (skipn m l)))).
    + rewrite IH.
      * simpl. apply firstn_skipn.
      * rewrite length_skipn, Hl. simpl. lia.
    + intros b. rewrite skipn_skipn. do 2 f_equal. simpl. lia.
Qed.

(** Merging a batch of tensors is stacking them. *)
Lemma _merge_unpacked_batch_leaves (shape : list nat) (arrays : list (ndarray elem)) :
  arrays <> [] ->
  Forall (fun a => arr_shape a = shape) arrays ->
  _merge_unpacked_batch (map (@OArr elem) arrays)
  = Ok (OArr (mk_array (length arrays :: shape)
                       (concat (map (@arr_data elem) arrays)))).
Proof.
  intros Hne Hall. unfold _merge_unpacked_batch.
  destruct arrays as [|a arrays]; [contradiction|].
  cbn [map].
  assert (Hsame : forallb (same_structure (OArr a)) (map (@OArr elem) arrays) = true).
  { apply forallb_forall. intros o Ho. apply in_map_iff in Ho.
    destruct Ho as [a' [<- _]]. reflexivity. }
  rewrite Hsame.
  change (OArr a :: map (@OArr elem) arrays) with (map (@OArr elem) (a :: arrays)).
  cbn [stack_leaves].
  rewrite mapM_leaf_of. cbn [bind].
  now rewrite (torch_stack_uniform shape) by assumption.
Qed.

(** A batch of [N] flat blocks unpacked against a box is the whole block
    reshaped, with [N] in front of the shape of the box. *)
Lemma unpack_tensor_Box_batch (x : ndarray elem) (shape : list nat) (N : nat) :
  arr_shape x = [N; np_prod shape] -> 0 < N -> wf_array x ->
  unpack_tensor x (Box shape) = Ok (OArr (mk_array (N :: shape) (arr_data x))).
Proof.
  intros Hshape HN Hwf. unfold wf_array in Hwf. rewrite Hshape in Hwf.
  cbn [np_prod fold_right] in Hwf. rewrite Nat.mul_1_r in Hwf.
  fold (np_prod shape) in Hwf.
  rewrite unpack_tensor_unfold. unfold ndim. rewrite Hshape.
  cbn [length Nat.ltb Nat.leb]. rewrite _unpack_tensor_batched_unfold.
  unfold size0. rewrite Hshape. cbn [bind].
  set (block := fun b => firstn (np_prod shape)
                                (skipn (b * np_prod shape) (arr_data x))).
  assert (Hlist :
    mapM (fun b => slice <- select x b ;; unpack_tensor slice (Box shape)) (seq 0 N)
    = Ok (map (@OArr elem) (map (fun b => mk_array shape (block b)) (seq 0 N)))).
  { rewrite map_map.
    apply Forall2_mapM_Ok, Forall2_map_right, Forall2_diag.
    intros b Hb. apply in_seq in Hb. unfold select. rewrite Hshape.
    destruct (Nat.ltb_spec b N) as [_|]; [|lia]. cbn [bind].
    rewrite unpack_tensor_unfold. cbn [ndim arr_shape length Nat.ltb Nat.leb].
    cbn [_unpack_tensor_single]. unfold torch_reshape, reshape.
    cbn [arr_data np_prod fold_right]. rewrite Nat.mul_1_r.
    fold (np_prod shape). fold (block b).
    assert (Hlen : length (block b) = np_prod shape).
    { unfold block. rewrite length_firstn, length_skipn, Hwf. nia. }
    rewrite Hlen, Nat.eqb_refl. reflexivity. }
  rewrite Hlist. cbn [bind].
  rewrite (_merge_unpacked_batch_leaves shape).
  - rewrite !length_map, length_seq, !map_map. cbn [arr_data].
    unfold block. now rewrite concat_blocks.
  - destruct N; [lia | discriminate].
  - apply Forall_map, Forall_forall. reflexivity.
Qed.

(** C1, as the code has it.  With a [Box] observation space the bundle
    holds [unpack_tensor x space] as the observation: for a block without
    batch dimension that is [x] reshaped to the shape of the box, for a
    batch of [N] blocks it is [x] reshaped to [N] times the shape of the box.
    With any other observation space, [Dict] included, [x] itself is the
    observation and nothing is unpacked.  The flat field is [x] in both
    cases. *)
Theorem forward_input_by_space_kind (self : RayModelWrapper elem) (x : ndarray elem) :
  (forall shape,
      RayModelWrapper_obs_space self = Box shape ->
      forward_input_dict self x
      = (unpacked <- unpack_tensor x (Box shape) ;;
         Ok (mk_input_dict unpacked x))
      /\ (ndim x <= 1 ->
          forward_input_dict self x
          = (a <- torch_reshape x shape ;; Ok (mk_input_dict (OArr a) x)))
      /\ (forall N,
             arr_shape x = [N; np_prod shape] -> 0 < N -> wf_array x ->
             forward_input_dict self x
             = Ok (mk_input_dict (OArr (mk_array (N :: shape) (arr_data x))) x)))
  /\ (is_box (RayModelWrapper_obs_space self) = false ->
      forward_input_dict self x = Ok (mk_input_dict (OArr x) x)).
Proof.
  unfold forward_input_dict. split.
  - intros shape Hspace. rewrite Hspace. split; [reflexivity|]. split.
    + intros Hrank. unfold unpack_tensor.
      destruct (ndim x) as [|[|r]]; simpl; try lia;
        now destruct (torch_reshape x shape).
    + intros N Hshape HN Hwf.
      now rewrite (unpack_tensor_Box_batch x shape N Hshape HN Hwf).
  - intros Hkind.
    destruct (RayModelWrapper_obs_space self); simpl in Hkind;
      try discriminate; reflexivity.
Qed.

(** *** Spaces of another kind, through all four operations *)





End Properties.

(** ** The properties on the example inputs *)

(** C1, counterexample: with the [Dict] space [pos_vel] the bundle holds the
    flat block, not the unpacked mapping; with a box of shape [1; 2] it
    holds the reshaped block, not the flat one. *)
Lemma forward_input_counterexample :
  ~ forward_input_as_specified (echo_wrapper pos_vel None) (array1 [1; 2; 3])
  /\ ~ forward_input_as_specified (echo_wrapper (Box [1; 2]) None)
         (array1 [1; 2]).
Proof.
  split.
  - intros [structured [Hunpack Hinput]].
    vm_compute in Hunpack. vm_compute in Hinput.
    inversion Hinput; subst. discriminate.
  - intros H. vm_compute in H. discriminate.
Qed.

(** C1 on a box of shape [2; 3] and on [pos_vel]. *)
Lemma forward_input_by_space_kind_witness :
  forward_input_dict (echo_wrapper (Box [2; 3]) None) (array1 [1; 2; 3; 4; 5; 6])
  = Ok (mk_input_dict (OArr (mk_array [2; 3] [1; 2; 3; 4; 5; 6]))
                      (array1 [1; 2; 3; 4; 5; 6]))
  /\ forward_input_dict (echo_wrapper pos_vel None) (array1 [1; 2; 3])
     = Ok (mk_input_dict (OArr (array1 [1; 2; 3])) (array1 [1; 2; 3])).
Proof.
  split.
  - destruct (forward_input_by_space_kind nat
                (echo_wrapper (Box [2; 3]) None) (array1 [1; 2; 3; 4; 5; 6]))
      as [Hbox _].
    destruct (Hbox [2; 3] eq_refl) as [_ [Hreshape _]].
    rewrite Hreshape; [reflexivity | vm_compute; lia].
  - apply (proj2 (forward_input_by_space_kind nat
                    (echo_wrapper pos_vel None) (array1 [1; 2; 3]))).
    reflexivity.
Defined.

(** C2, on the code: [_packed_size] of a [Dict] with at least one item
    raises on the first key, also where [pack_array] returns a block, as on
    [pos_vel], whose packed observation has three elements and whose
    children have sizes 2 and 1. *)
Theorem packed_size_of_dict_raises :
  (forall name s rest,
      _packed_size (Dict ((name, s) :: rest))
      = Raise (SpaceNotSupported (PyStr name)))
  /\ pack_array float32_exact pos_vel_obs pos_vel = Ok (array1 [1; 2; 3])
  /\ mapM _packed_size (dict_values [("pos", Box [2]); ("vel", Box [1])])
     = Ok [2; 1]
  /\ _packed_size pos_vel = Raise (SpaceNotSupported (PyStr "pos")).
Proof. repeat split. Qed.

(** C3, on the code: the nested observation packs to [5; 6; 7], and
    unpacking that block against the same space raises, the size of the
    inner dict being asked for. *)
Theorem nested_round_trip_raises :
  pack_array float32_exact nested_obs nested = Ok (array1 [5; 6; 7])
  /\ unpack_array (array1 [5; 6; 7]) nested
     = Raise (SpaceNotSupported (PyStr "x")).
Proof. split; reflexivity. Qed.

(** C4, on the code: with a box declared before a dict, the packed block
    starts with the content of the box and goes on with the content of the
    dict, and unpacking it raises instead of returning the mapping. *)
Theorem dict_child_unpack_raises :
  let space := Dict [("b", Box [2]); ("a", Dict [("x", Box [1])])] in
  let obs := ODict [("a", ODict [("x", OArr (array1 [5]))]);
                    ("b", OArr (array1 [6; 7]))] in
  pack_array float32_exact obs space = Ok (array1 [6; 7; 5])
  /\ pack_array float32_exact (OArr (array1 [6; 7])) (Box [2]) = Ok (array1 [6; 7])
  /\ unpack_array (array1 [6; 7; 5]) space
     = Raise (SpaceNotSupported (PyStr "x")).
Proof. repeat split. Qed.

(** C5 on a batch of two blocks for [pos_vel]. *)
Lemma unpack_tensor_batch_witness :
  exists R,
    unpack_tensor (mk_array [2; 3] [1; 2; 3; 4; 5; 6]) pos_vel = Ok R
    /\ R = ODict [("pos", OArr (mk_array [2; 2] [1; 2; 4; 5]));
                  ("vel", OArr (mk_array [2; 1] [3; 6]))]
    /\ obs_select R 1
       = Ok (ODict [("pos", OArr (array1 [4; 5])); ("vel", OArr (array1 [6]))]).
Proof.
  pose (per_slice := fun i : nat =>
          match i with
          | 0 => ODict [("pos", OArr (array1 [1; 2])); ("vel", OArr (array1 [3]))]
          | _ => ODict [("pos", OArr (array1 [4; 5])); ("vel", OArr (array1 [6]))]
          end).
  assert (Hslices : forall i slice,
             i < 2 ->
             select (mk_array [2; 3] [1; 2; 3; 4; 5; 6]) i = Ok slice ->
             unpack_tensor slice pos_vel = Ok (per_slice i)).
  { intros [|[|i]] slice Hi Hslice; [| |lia];
      vm_compute in Hslice; inversion Hslice; reflexivity. }
  destruct (proj2 (proj2 (unpack_tensor_batch nat
                            (mk_array [2; 3] [1; 2; 3; 4; 5; 6]) pos_vel))
              2 [3] per_slice eq_refl eq_refl
              ltac:(discriminate) ltac:(lia) Hslices)
    as [R [HR [_ Hsel]]].
  exists R. split; [exact HR|]. split.
  - vm_compute in HR. now inversion HR.
  - destruct (Hsel 1) as [_ [H1 _]]; [lia | exact H1].
Defined.



(** C7 on a wrapper whose observation space is a box of shape [4]. *)
Lemma flatten_obs_box_is_identity_witness :
  flatten_obs (fun _ _ => Raise NotImplementedError)
    (echo_wrapper (Box [4]) None) (OArr (array1 [1; 2; 3; 4]))
  = Ok (OArr (array1 [1; 2; 3; 4])).
Proof.
  apply (flatten_obs_box_is_identity nat (fun _ _ => Raise NotImplementedError)
           (RayModelWrapper nat) _ (echo_wrapper (Box [4]) None)
           (OArr (array1 [1; 2; 3; 4])) [4]).
  reflexivity.
Defined.

(** C8 on a model with, and on one without, an original space. *)
Lemma obs_space_prefers_original_witness :
  obs_space (echo_wrapper (Box [3]) (Some pos_vel)) = Ok pos_vel
  /\ obs_space (echo_wrapper (Box [3]) None) = Ok (Box [3]).
Proof.
  split.
  - apply (proj1 (obs_space_prefers_original nat
                    (echo_wrapper (Box [3]) (Some pos_vel)))).
    reflexivity.
  - apply (proj1 (proj2 (obs_space_prefers_original nat
                           (echo_wrapper (Box [3]) None)))).
    reflexivity.
Defined.

(** C9 on [pos_vel]: an undeclared key and another order of the keys. *)
Lemma pack_array_reads_declared_keys_witness :
  pack_array float32_exact
    (ODict [("pos", OArr (array1 [1; 2])); ("vel", OArr (array1 [3]))])
    pos_vel
  = pack_array float32_exact
      (ODict [("extra", OArr (array1 [9])); ("vel", OArr (array1 [3]));
              ("pos", OArr (array1 [1; 2]))])
      pos_vel.
Proof.
  apply (pack_array_reads_declared_keys nat float32_exact
           [("pos", Box [2]); ("vel", Box [1])]).
  intros name [<-|[<-|[]]]; reflexivity.
Defined.

(** C10 on a wrapper for [pos_vel]. *)
Lemma forward_calls_model_without_state_witness :
  fst (forward (echo_wrapper pos_vel None) (array1 [1; 2; 3]))
  = [mk_invocation
       (mk_input_dict (OArr (array1 [1; 2; 3])) (array1 [1; 2; 3])) None None]
  /\ snd (forward (echo_wrapper pos_vel None) (array1 [1; 2; 3]))
     = Ok (array1 [1; 2; 3]).
Proof.
  apply (proj1 (proj2 (forward_calls_model_without_state nat
                         (echo_wrapper pos_vel None) (array1 [1; 2; 3])))).
  reflexivity.
Defined.

(** ** Further properties of the module *)

Section Coverage.

Variable elem : Type.
Variable float32 : elem -> elem.
Variable zero : elem.
Variable gym_flatten : Space -> Obs elem -> result (Obs elem).
Variable gym_unflatten : Space -> Obs elem -> result (Obs elem).

(** *** What [pack_array] returns *)

Lemma mapM_Ok_exists (T U : Type) (Q : T -> U -> Prop) (f : T -> result U)
  (l : list T) :
  (forall x, In x l -> exists y, f x = Ok y /\ Q x y) ->
  exists r, mapM f l = Ok r /\ Forall2 Q l r.
Proof.
  induction l as [|x l IH]; intros H.
  - exists []. split; [reflexivity | constructor].
  - destruct (H x (or_introl eq_refl)) as [y [Hy HQ]].
    destruct IH as [r [Hr HQs]]; [intros x' Hx'; apply H; now right|].
    exists (y :: r). split; [|now constructor].
    simpl. now rewrite Hy, Hr.
Qed.

Lemma np_concatenate_data (values : list (ndarray elem)) (p : ndarray elem) :
  np_concatenate values = Ok p ->
  values <> [] /\ arr_data p = concat (map (@arr_data elem) values).
Proof.
  unfold np_concatenate. destruct values as [|a rest]; [discriminate|].
  destruct (arr_shape a) as [|n trailing]; [discriminate|].
  destruct (forallb _ _); [|discriminate].
  intros H. inversion H; subst. split; [discriminate | reflexivity].
Qed.

Lemma one_dim_array1 (v : ndarray elem) : one_dim v -> v = array1 (arr_data v).
Proof.
  unfold one_dim, array1. destruct v as [shape data]. simpl. now intros ->.
Qed.

Lemma np_concatenate_one_dim (values : list (ndarray elem)) :
  values <> [] ->
  Forall (@one_dim elem) values ->
  np_concatenate values = Ok (array1 (concat (map (@arr_data elem) values))).
Proof.
  intros Hne Hall.
  assert (Heq : values = map (@array1 elem) (map (@arr_data elem) values)).
  { clear Hne. induction Hall as [|v values Hv _ IH]; [reflexivity|].
    simpl. rewrite <- IH. f_equal. now apply one_dim_array1. }
  rewrite Heq at 1. apply np_concatenate_array1.
  destruct values; [contradiction | discriminate].
Qed.

Lemma pack_array_one_dim (space : Space) :
  forall (obs : Obs elem) (packed : ndarray elem),
    pack_array float32 obs space = Ok packed -> one_dim packed.
Proof.
  induction space as [shape|spaces IH|n|members _] using Space_nested_ind;
    intros obs packed H; try discriminate.
  - destruct obs as [a|d]; [|discriminate]. inversion H. reflexivity.
  - rewrite pack_array_Dict in H.
    apply bind_Ok_inv in H. destruct H as [values [Hvalues Hcat]].
    assert (Hall : Forall (@one_dim elem) values).
    { apply mapM_Ok_Forall2 in Hvalues. apply Forall_forall. intros v Hv.
      destruct (Forall2_in_right _ _ _ _ _ _ Hvalues Hv) as [item [Hitem Hpack]].
      apply bind_Ok_inv in Hpack. destruct Hpack as [child [_ Hchild]].
      rewrite Forall_forall in IH. exact (IH item Hitem child v Hchild). }
    destruct (np_concatenate_data values packed Hcat) as [Hne _].
    rewrite (np_concatenate_one_dim values Hne Hall) in Hcat.
    inversion Hcat. reflexivity.
Qed.

(** X6: whatever [pack_array] returns is a one-dimensional array, its
    shape being its number of elements, at every depth of nesting. *)
Theorem pack_array_is_one_dimensional (space : Space) (obs : Obs elem)
  (packed : ndarray elem) :
  pack_array float32 obs space = Ok packed ->
  arr_shape packed = [length (arr_data packed)] /\ ndim packed = 1.
Proof.
  intros H. apply pack_array_one_dim in H. unfold one_dim in H.
  split; [exact H|]. unfold ndim. now rewrite H.
Qed.

(** X7: the block packed for a [Dict] is the blocks packed for its
    children, each looked up under its name, laid end to end in the
    declared order; the children may be dicts themselves. *)
Theorem pack_array_concatenates_children (obs : Obs elem)
  (spaces : list (string * Space)) (packed : ndarray elem) :
  pack_array float32 obs (Dict spaces) = Ok packed ->
  exists children,
    Forall2 (fun item c =>
               exists child,
                 getitem obs (fst item) = Ok child
                 /\ pack_array float32 child (snd item) = Ok c)
            spaces children
    /\ arr_data packed = concat (map (@arr_data elem) children)
    /\ spaces <> [].
Proof.
  intros H. rewrite pack_array_Dict in H.
  apply bind_Ok_inv in H. destruct H as [values [Hvalues Hcat]].
  destruct (np_concatenate_data values packed Hcat) as [Hne Hdata].
  exists values. split; [|split; [exact Hdata|]].
  - apply mapM_Ok_Forall2 in Hvalues.
    eapply Forall2_weaken_in; [|exact Hvalues].
    intros item c _ Hc. apply bind_Ok_inv in Hc.
    destruct Hc as [child [Hget Hpack]]. now exists child.
  - intros ->. simpl in Hvalues. inversion Hvalues; subst. contradiction.
Qed.

Lemma pack_array_Ok_packable (space : Space) :
  forall (obs : Obs elem) (packed : ndarray elem),
    pack_array float32 obs space = Ok packed -> packable space = true.
Proof.
  induction space as [shape|spaces IH|n|members _] using Space_nested_ind;
    intros obs packed H; try discriminate; [reflexivity|].
  rewrite pack_array_Dict in H.
  apply bind_Ok_inv in H. destruct H as [values [Hvalues Hcat]].
  destruct (np_concatenate_data values packed Hcat) as [Hne _].
  simpl. apply andb_true_iff. split.
  - destruct spaces; [|reflexivity]. simpl in Hvalues.
    inversion Hvalues; subst. contradiction.
  - apply forallb_forall. intros item Hitem.
    apply mapM_Ok_Forall2 in Hvalues.
    destruct (Forall2_in_left _ _ _ _ _ item Hvalues Hitem) as [c [_ Hc]].
    apply bind_Ok_inv in Hc. destruct Hc as [child [_ Hpack]].
    rewrite Forall_forall in IH. exact (IH item Hitem child c Hpack).
Qed.

(** X8: [pack_array] returns a block only against a space built from
    boxes and from dicts with at least one item: a space of another kind or
    an empty dict anywhere in the space makes it raise, whatever the
    observation. *)
Theorem pack_array_needs_packable_space (space : Space) (obs : Obs elem) :
  packable space = false ->
  exists e, pack_array float32 obs space = Raise e.
Proof.
  intros Hspace.
  destruct (pack_array float32 obs space) as [packed|e] eqn:H; [|now exists e].
  apply pack_array_Ok_packable in H. congruence.
Qed.

Lemma child_of_getitem (obs : Obs elem) (k : string) (v : Obs elem) :
  child_of k obs = Ok v -> getitem obs k = Ok v.
Proof.
  destruct obs as [a|d]; simpl; [discriminate|].
  now destruct (dict_get d k).
Qed.

Lemma pack_array_conforming (space : Space) :
  wf_space space = true -> packable space = true ->
  forall obs : Obs elem,
    conforms [] space obs ->
    exists packed,
      pack_array float32 obs space = Ok packed
      /\ length (arr_data packed) = box_elements space.
Proof.
  induction space as [shape|spaces IH|n|members _] using Space_nested_ind;
    intros Hwf Hpackable obs Hobs; try discriminate.
  - destruct (conforms_Box_inv _ _ _ _ Hobs) as [a [-> [Hshape Hwfa]]].
    eexists. split; [reflexivity|]. simpl.
    rewrite length_map, Hwfa. now rewrite Hshape.
  - simpl in Hwf. apply andb_true_iff in Hwf. destruct Hwf as [Hnodup Hwfs].
    apply nodupb_NoDup in Hnodup.
    simpl in Hpackable. apply andb_true_iff in Hpackable.
    destruct Hpackable as [Hne Hpackables].
    destruct (conforms_children _ _ _ _ Hnodup Hobs) as [Hchildren _].
    rewrite Forall_forall in IH.
    rewrite forallb_forall in Hwfs, Hpackables.
    destruct (mapM_Ok_exists _ _
                (fun item c => one_dim c
                               /\ length (arr_data c) = box_elements (snd item))
                (fun item => child <- getitem obs (fst item) ;;
                             pack_array float32 child (snd item)) spaces)
      as [values [Hvalues Hall]].
    { intros item Hitem.
      destruct (Hchildren item Hitem) as [v [Hv Hconf]].
      apply child_of_getitem in Hv. rewrite Hv. cbn [bind].
      destruct (IH item Hitem (Hwfs item Hitem) (Hpackables item Hitem) v Hconf)
        as [c [Hc Hlen]].
      exists c. repeat split; try assumption.
      exact (pack_array_one_dim _ _ _ Hc). }
    rewrite pack_array_Dict, Hvalues. cbn [bind].
    rewrite np_concatenate_one_dim.
    + eexists. split; [reflexivity|]. cbn [arr_data array1 box_elements].
      rewrite length_concat_sum, map_map. f_equal.
      clear -Hall. induction Hall as [|item c spaces values [_ Hlen] _ IH'];
        simpl; [reflexivity|]. now rewrite Hlen, IH'.
    + intros ->. inversion Hall; subst. discriminate.
    + apply Forall_forall. intros c Hc.
      destruct (Forall2_in_right _ _ _ _ _ _ Hall Hc) as [item [_ [H1 _]]].
      exact H1.
Qed.

(** X9: a valid observation of a space built from boxes and non-empty
    dicts with distinct names always packs, and the packed block has as
    many elements as the boxes of the space hold together. *)
Theorem pack_array_valid_observation (space : Space) (obs : Obs elem) :
  wf_space space = true -> packable space = true ->
  conforms [] space obs ->
  exists packed,
    pack_array float32 obs space = Ok packed
    /\ arr_shape packed = [box_elements space]
    /\ length (arr_data packed) = box_elements space.
Proof.
  intros Hwf Hpackable Hobs.
  destruct (pack_array_conforming space Hwf Hpackable obs Hobs)
    as [packed [Hpack Hlen]].
  exists packed. split; [exact Hpack|]. split; [|exact Hlen].
  apply pack_array_one_dim in Hpack. unfold one_dim in Hpack.
  now rewrite Hpack, Hlen.
Qed.

(** X10: [pack_array] never reads the shape of a box: against the space
    with all shapes forgotten it gives the same block, or raises the same
    exception.  An observation of the wrong shape is packed as it is. *)
Theorem pack_array_ignores_box_shapes (space : Space) :
  forall obs : Obs elem,
    pack_array float32 obs (erase_shapes space) = pack_array float32 obs space.
Proof.
  induction space as [shape|spaces IH|n|members _] using Space_nested_ind;
    intros obs; try reflexivity.
  cbn [erase_shapes]. rewrite !pack_array_Dict. f_equal.
  rewrite mapM_map. apply mapM_ext_in. intros item Hitem. cbn [fst snd].
  destruct (getitem obs (fst item)) as [child|e]; [|reflexivity]. cbn [bind].
  rewrite Forall_forall in IH. exact (IH item Hitem child).
Qed.

(** X11: when the observation has no value under a declared name, and the
    children declared before it are packed, [pack_array] raises [KeyError]
    of that name; an array where a dict is declared raises [IndexError], a
    dict where a box is declared [TypeError]. *)
Theorem pack_array_missing_key (d : list (string * Obs elem))
  (before after : list (string * Space)) (name : string) (s : Space) :
  (exists packed,
      mapM (fun item => child <- getitem (ODict d) (fst item) ;;
                        pack_array float32 child (snd item)) before = Ok packed) ->
  dict_get d name = None ->
  pack_array float32 (ODict d) (Dict (before ++ (name, s) :: after))
  = Raise (KeyError name)
  /\ (forall a, pack_array float32 (OArr a) (Dict ((name, s) :: after))
                = Raise IndexError)
  /\ (forall shape, pack_array float32 (ODict d) (Box shape) = Raise TypeError).
Proof.
  intros [packed Hbefore] Hmissing. split; [|split; reflexivity].
  rewrite pack_array_Dict.
  assert (Hraise :
    mapM (fun item => child <- getitem (ODict d) (fst item) ;;
                      pack_array float32 child (snd item))
         (before ++ (name, s) :: after)
    = Raise (KeyError name)).
  { revert packed Hbefore.
    induction before as [|[k s'] before IH]; intros packed Hbefore.
    - simpl. now rewrite Hmissing.
    - cbn [app mapM fst snd] in *.
      destruct (getitem (ODict d) k) as [c|]; [|discriminate]. cbn [bind] in *.
      destruct (pack_array float32 c s'); [|discriminate]. cbn [bind] in *.
      destruct (mapM _ before) as [ps|] eqn:Hps; [|discriminate].
      now rewrite (IH ps eq_refl). }
  now rewrite Hraise.
Qed.

(** *** [unpack_array] on spaces with one level of nesting *)

Lemma box_elements_boxes (items : list (string * list nat)) :
  box_elements (Dict (boxes items))
  = list_sum (map (fun item => np_prod (snd item)) items).
Proof. simpl. unfold boxes. now rewrite map_map. Qed.

Lemma flat_space_wf (space : Space) : flat_space space = true -> wf_space space = true.
Proof.
  destruct space as [shape|spaces|n|members]; try discriminate; [reflexivity|].
  simpl. intros H.
  apply andb_true_iff in H. destruct H as [H Hbox].
  apply andb_true_iff in H. destruct H as [_ Hnodup].
  rewrite Hnodup. simpl. apply forallb_forall. intros item Hitem.
  rewrite forallb_forall in Hbox. specialize (Hbox item Hitem).
  now destruct (snd item).
Qed.

Lemma flat_space_packable (space : Space) :
  flat_space space = true -> packable space = true.
Proof.
  destruct space as [shape|spaces|n|members]; try discriminate; [reflexivity|].
  simpl. intros H.
  apply andb_true_iff in H. destruct H as [H Hbox].
  apply andb_true_iff in H. destruct H as [Hne _].
  rewrite Hne. simpl. apply forallb_forall. intros item Hitem.
  rewrite forallb_forall in Hbox. specialize (Hbox item Hitem).
  now destruct (snd item).
Qed.

Lemma Forall2_of_map_left (T U V : Type) (P : U -> V -> Prop) (g : T -> U)
  (l : list T) (r : list V) :
  Forall2 P (map g l) r -> Forall2 (fun x y => P (g x) y) l r.
Proof.
  revert r. induction l as [|x l IH]; intros r H; inversion H; subst;
    constructor; auto.
Qed.

(** A list as long as the sizes add up to is blocks of those sizes, end to
    end. *)
Lemma split_by_sizes (sizes : list nat) :
  forall l : list elem,
    length l = list_sum sizes ->
    exists blocks,
      concat blocks = l /\ Forall2 (fun size block => length block = size) sizes blocks.
Proof.
  induction sizes as [|size sizes IH]; intros l Hl.
  - exists []. destruct l; [|discriminate]. split; [reflexivity | constructor].
  - destruct (IH (skipn size l)) as [blocks [Hcat Hall]].
    { rewrite length_skipn, Hl. simpl. lia. }
    exists (firstn size l :: blocks). split.
    + simpl. rewrite Hcat. apply firstn_skipn.
    + constructor; [|exact Hall]. rewrite length_firstn, Hl. simpl. lia.
Qed.

Lemma conforms_named_arrays (items : list (string * list nat))
  (arrays : list (ndarray elem)) :
  Forall2 (fun item a => arr_shape a = snd item /\ wf_array a) items arrays ->
  conforms [] (Dict (boxes items)) (ODict (named_arrays items arrays)).
Proof.
  intros H. apply conforms_Dict. unfold boxes, named_arrays.
  induction H as [|item a items arrays [Hshape Hwf] _ IH]; simpl; constructor.
  - simpl. now repeat split.
  - exact IH.
Qed.

(** What [unpack_array] makes of a one-dimensional block of the right
    length against a dict of boxes, and what packing that gives. *)
Lemma unpack_array_one_level (items : list (string * list nat)) (data : list elem) :
  items <> [] ->
  NoDup (map fst items) ->
  length data = list_sum (map (fun item => np_prod (snd item)) items) ->
  exists arrays,
    unpack_array (array1 data) (Dict (boxes items))
    = Ok (ODict (named_arrays items arrays))
    /\ Forall2 (fun item a => arr_shape a = snd item /\ wf_array a) items arrays
    /\ concat (map (@arr_data elem) arrays) = data.
Proof.
  intros Hne Hnodup Hlen.
  destruct (split_by_sizes _ data Hlen) as [blocks [Hcat Hblocks]].
  assert (Hlens : Forall2 (fun item block => length block = np_prod (snd item))
                          items blocks).
  { apply Forall2_of_map_left in Hblocks. exact Hblocks. }
  exists (map (fun p => mk_array (snd (fst p)) (snd p)) (combine items blocks)).
  split; [|split].
  - rewrite <- Hcat. now apply unpack_array_boxes.
  - clear -Hlens. induction Hlens as [|item block items blocks H _ IH];
      simpl; constructor; [|exact IH].
    split; [reflexivity|]. unfold wf_array. simpl. exact H.
  - rewrite <- Hcat. clear -Hlens.
    induction Hlens as [|item block items blocks _ _ IH]; simpl; [reflexivity|].
    now rewrite IH.
Qed.

(** X1: on a box, and on a dict of boxes with distinct names, unpacking
    what [pack_array] packed of a valid observation gives the observation
    back with its elements converted to float32, so the observation itself
    when the conversion changes none of them. *)
Theorem round_trip_one_level (space : Space) (obs : Obs elem) :
  flat_space space = true ->
  conforms [] space obs ->
  exists packed,
    pack_array float32 obs space = Ok packed
    /\ unpack_array packed space = Ok (obs_map float32 obs)
    /\ (obs_map float32 obs = obs -> unpack_array packed space = Ok obs).
Proof.
  intros Hflat Hobs.
  destruct (flat_round_trip elem float32 space obs Hflat Hobs)
    as [packed [Hpack Hunpack]].
  exists packed. split; [exact Hpack|]. split; [exact Hunpack|].
  intros Hsame. now rewrite Hunpack, Hsame.
Qed.

(** X2: on a box, and on a dict of boxes with distinct names, a
    one-dimensional block that has as many elements as the boxes hold
    unpacks to a valid observation of the space, and packing that
    observation gives the block back, converted to float32. *)
Theorem unpack_then_pack_one_level (space : Space) (flat : ndarray elem) :
  flat_space space = true ->
  arr_shape flat = [length (arr_data flat)] ->
  length (arr_data flat) = box_elements space ->
  exists obs,
    unpack_array flat space = Ok obs
    /\ conforms [] space obs
    /\ pack_array float32 obs space = Ok (array1 (map float32 (arr_data flat))).
Proof.
  intros Hflat Hdim Hlen. rewrite (one_dim_array1 flat Hdim).
  cbn [arr_data array1].
  destruct space as [shape|spaces|n|members]; try discriminate.
  - simpl in Hlen. cbn [unpack_array]. unfold np_reshape, reshape.
    cbn [arr_data array1]. rewrite Hlen, Nat.eqb_refl. cbn [bind].
    eexists. split; [reflexivity|]. split; [|reflexivity].
    simpl. split; [reflexivity | exact Hlen].
  - destruct (flat_space_boxes spaces Hflat) as [items [-> [Hne Hnodup]]].
    rewrite box_elements_boxes in Hlen.
    destruct (unpack_array_one_level items (arr_data flat) Hne Hnodup Hlen)
      as [arrays [Hunpack [Hall Hcat]]].
    exists (ODict (named_arrays items arrays)).
    split; [exact Hunpack|]. split; [now apply conforms_named_arrays|].
    destruct (dict_of_boxes_layout elem float32 items arrays Hne Hnodup Hall)
      as [Hpack _].
    rewrite Hpack. do 2 f_equal. rewrite <- Hcat.
    rewrite concat_map, map_map. reflexivity.
Qed.

(** *** [unpack_array]: blocks of the wrong length, and what it returns *)

Lemma zipM_Raise_inv (T U V : Type) (f : T -> U -> result V)
  (l1 : list T) (l2 : list U) (e : exn) :
  zipM f l1 l2 = Raise e ->
  exists x y, In x l1 /\ In y l2 /\ f x y = Raise e.
Proof.
  revert l1. induction l2 as [|y l2 IH]; intros [|x l1] H; try discriminate.
  simpl in H. destruct (f x y) as [v|e'] eqn:Hv; simpl in H.
  - destruct (zipM f l1 l2) as [vs|e''] eqn:Hvs; simpl in H; [discriminate|].
    inversion H; subst e''.
    destruct (IH l1 Hvs) as [x' [y' [Hx' [Hy' Hf]]]].
    exists x', y'. repeat split; [now right | now right | assumption].
  - inversion H; subst e'. exists x, y. repeat split; [now left | now left | assumption].
Qed.

Lemma zipM_cons (T U V : Type) (f : T -> U -> result V) (x : T) (l1 : list T)
  (y : U) (l2 : list U) :
  zipM f (x :: l1) (y :: l2) = (v <- f x y ;; vs <- zipM f l1 l2 ;; Ok (v :: vs)).
Proof. reflexivity. Qed.

Lemma length_sections (a : ndarray elem) (n : nat) (trailing : list nat)
  (cuts : list nat) :
  forall start, length (sections a n trailing start cuts) = length cuts.
Proof.
  induction cuts as [|stop cuts IH]; intros start; simpl; [reflexivity|].
  now rewrite IH.
Qed.

Lemma length_np_cumsum_from (l : list nat) :
  forall acc, length (np_cumsum_from acc l) = length l.
Proof.
  induction l as [|x l IH]; intros acc; simpl; [reflexivity|]. now rewrite IH.
Qed.

(** The split of [unpack_array] makes as many sections as there are sizes,
    when there is a size at all. *)
Lemma length_split_points (sizes : list nat) (n : nat) :
  sizes <> [] ->
  length (removelast (np_cumsum sizes) ++ [n]) = length sizes.
Proof.
  intros Hne. unfold np_cumsum.
  rewrite <- (length_np_cumsum_from sizes 0).
  rewrite <- (np_cumsum_from_last 0 sizes Hne) at 2.
  now rewrite !length_app.
Qed.

(** When every section fits its box, the sizes of the boxes add up to the
    length of the block. *)
Lemma sections_fit_boxes (a : ndarray elem) (n : nat) :
  length (arr_data a) = n ->
  forall (items : list (string * list nat)) (acc : nat)
         (r : list (string * Obs elem)),
    items <> [] -> acc <= n ->
    zipM (fun unpacked item => v <- unpack_array unpacked (snd item) ;;
                               Ok (fst item, v))
         (sections a n [] acc
            (removelast (np_cumsum_from acc
                           (map (fun item => np_prod (snd item)) items)) ++ [n]))
         (boxes items) = Ok r ->
    acc + list_sum (map (fun item => np_prod (snd item)) items) = n.
Proof.
  intros Hdata.
  induction items as [|[k shape] items IH]; intros acc r Hne Hacc H;
    [contradiction|].
  destruct items as [|item2 items].
  - cbn in H. unfold np_reshape, reshape in H.
    destruct (Nat.eqb_spec (length (arr_data (row_slice a n [] acc n)))
                           (np_prod shape)) as [Hfit|]; [|discriminate].
    unfold row_slice in Hfit. cbn [arr_data np_prod fold_right] in Hfit.
    rewrite length_firstn, length_skipn, Hdata in Hfit. simpl. lia.
  - change (map (fun item => np_prod (snd item)) ((k, shape) :: item2 :: items))
      with (np_prod shape
            :: map (fun item => np_prod (snd item)) (item2 :: items)) in *.
    change (np_cumsum_from acc
              (np_prod shape
               :: map (fun item => np_prod (snd item)) (item2 :: items)))
      with ((acc + np_prod shape)
            :: np_cumsum_from (acc + np_prod shape)
                 (map (fun item => np_prod (snd item)) (item2 :: items))) in H.
    remember (np_cumsum_from (acc + np_prod shape)
                (map (fun item => np_prod (snd item)) (item2 :: items)))
      as rest eqn:Hrest.
    destruct rest as [|c rest]; [simpl in Hrest; discriminate|].
    change (removelast ((acc + np_prod shape) :: c :: rest))
      with ((acc + np_prod shape) :: removelast (c :: rest)) in H.
    rewrite <- app_comm_cons in H.
    change (boxes ((k, shape) :: item2 :: items))
      with ((k, Box shape) :: boxes (item2 :: items)) in H.
    cbn [sections] in H. rewrite zipM_cons in H.
    apply bind_Ok_inv in H. destruct H as [v [Hv H]].
    apply bind_Ok_inv in H. destruct H as [r' [Hzip _]].
    cbn [fst snd unpack_array] in Hv. unfold np_reshape, reshape in Hv.
    destruct (Nat.eqb_spec
                (length (arr_data (row_slice a n [] acc (acc + np_prod shape))))
                (np_prod shape)) as [Hfit|]; [|discriminate].
    unfold row_slice in Hfit. cbn [arr_data np_prod fold_right] in Hfit.
    rewrite length_firstn, length_skipn, Hdata in Hfit.
    assert (Hnext : acc + np_prod shape <= n) by lia.
    specialize (IH (acc + np_prod shape) r' ltac:(discriminate) Hnext).
    rewrite <- Hrest in IH. specialize (IH Hzip).
    simpl. simpl in IH. lia.
Qed.

(** X3: on a box, and on a dict of boxes with distinct names, a
    one-dimensional block with more or fewer elements than the boxes hold
    makes [unpack_array] raise [ValueError]: nothing is cut off and nothing
    is filled in. *)
Theorem unpack_array_wrong_length_raises (space : Space) (flat : ndarray elem) :
  flat_space space = true ->
  arr_shape flat = [length (arr_data flat)] ->
  length (arr_data flat) <> box_elements space ->
  unpack_array flat space = Raise ValueError.
Proof.
  intros Hflat Hdim Hlen.
  destruct space as [shape|spaces|n|members]; try discriminate.
  - simpl in Hlen. cbn [unpack_array]. unfold np_reshape, reshape.
    destruct (Nat.eqb_spec (length (arr_data flat)) (np_prod shape));
      [contradiction | reflexivity].
  - destruct (flat_space_boxes spaces Hflat) as [items [-> [Hne Hnodup]]].
    rewrite box_elements_boxes in Hlen.
    cbn [unpack_array]. rewrite sizes_of_boxes. cbn [bind].
    unfold np_split. rewrite Hdim. cbn [bind].
    destruct (zipM _ _ _) as [r|e] eqn:Hzip.
    + exfalso. apply Hlen. symmetry.
      apply (sections_fit_boxes flat _ eq_refl items 0 r Hne (Nat.le_0_l _)).
      exact Hzip.
    + cbn [bind]. apply zipM_Raise_inv in Hzip.
      destruct Hzip as [piece [item [_ [Hitem Hraise]]]].
      unfold boxes in Hitem. apply in_map_iff in Hitem.
      destruct Hitem as [[k shape] [<- _]]. cbn [fst snd unpack_array] in Hraise.
      unfold np_reshape, reshape in Hraise.
      destruct (Nat.eqb _ _); [discriminate | now inversion Hraise].
Qed.

Lemma unpack_array_conforms (space : Space) :
  wf_space space = true ->
  forall (flat : ndarray elem) (obs : Obs elem),
    unpack_array flat space = Ok obs -> conforms [] space obs.
Proof.
  induction space as [shape|spaces IH|n|members _] using Space_nested_ind;
    intros Hwf flat obs H; try discriminate.
  - simpl in H. unfold np_reshape, reshape in H.
    destruct (Nat.eqb_spec (length (arr_data flat)) (np_prod shape)) as [Hlen|];
      [|discriminate].
    inversion H; subst. simpl. now split.
  - simpl in Hwf. apply andb_true_iff in Hwf. destruct Hwf as [Hnodup Hwfs].
    apply nodupb_NoDup in Hnodup.
    cbn [unpack_array] in H.
    apply bind_Ok_inv in H. destruct H as [sizes [Hsizes H]].
    apply bind_Ok_inv in H. destruct H as [pieces [Hpieces H]].
    apply bind_Ok_inv in H. destruct H as [pairs [Hpairs H]].
    inversion H; subst obs. clear H.
    destruct spaces as [|item spaces].
    { destruct pieces; simpl in Hpairs; inversion Hpairs; exact I. }
    apply mapM_Ok_length in Hsizes. unfold dict_values in Hsizes.
    rewrite length_map in Hsizes.
    unfold np_split in Hpieces.
    destruct (arr_shape flat) as [|n trailing]; [discriminate|].
    inversion Hpieces; subst pieces. clear Hpieces.
    apply zipM_Ok_Forall2 in Hpairs.
    2:{ rewrite length_sections, length_split_points; [exact Hsizes|].
        intros ->. discriminate. }
    assert (Hconf : Forall2 (fun item kv => fst item = fst kv
                                /\ conforms [] (snd item) (snd kv))
                            (item :: spaces) pairs).
    { rewrite Forall_forall in IH. rewrite forallb_forall in Hwfs.
      eapply Forall2_weaken_in; [|exact Hpairs].
      intros item' kv Hitem [piece [_ Hv]].
      apply bind_Ok_inv in Hv. destruct Hv as [v [Hv Hkv]].
      inversion Hkv; subst kv. simpl. split; [reflexivity|].
      exact (IH item' Hitem (Hwfs item' Hitem) piece v Hv). }
    rewrite OrderedDict_distinct.
    + now apply conforms_Dict.
    + assert (Hkeys : map fst pairs = map fst (item :: spaces)).
      { clear -Hconf. induction Hconf as [|it kv sp ps [Hk _] _ IH'];
          simpl; [reflexivity|]. now rewrite Hk, IH'. }
      now rewrite Hkeys.
Qed.

(** X4: whatever [unpack_array] returns against a space with distinct
    names is a valid observation of that space: a dict with the declared
    names in the declared order for each [Dict], and for each box an array
    of the shape of the box with exactly as many elements. *)
Theorem unpack_array_result_conforms (space : Space) (flat : ndarray elem)
  (obs : Obs elem) :
  wf_space space = true ->
  unpack_array flat space = Ok obs ->
  conforms [] space obs.
Proof. intros Hwf H. exact (unpack_array_conforms space Hwf flat obs H). Qed.

(** X5: against a [Dict] that has a child [Dict] with at least one item,
    [unpack_array] and [_unpack_tensor_single] raise [SpaceNotSupported]
    for every flat block: the sizes of the children are computed first, and
    [_packed_size] raises on such a child. *)
Theorem unpack_nested_dict_always_raises (spaces : list (string * Space))
  (flat : ndarray elem) :
  existsb (fun item => has_items (snd item)) spaces = true ->
  (exists what, unpack_array flat (Dict spaces) = Raise (SpaceNotSupported what))
  /\ (exists what,
         _unpack_tensor_single flat (Dict spaces) = Raise (SpaceNotSupported what))
  /\ (exists what, unpack_tensor (array1 (arr_data flat)) (Dict spaces)
                   = Raise (SpaceNotSupported what)).
Proof.
  intros H.
  destruct (unpack_nested_dict_raises elem spaces flat H) as [Harray Hsingle].
  split; [exact Harray|]. split; [exact Hsingle|].
  destruct (unpack_nested_dict_raises elem spaces (array1 (arr_data flat)) H)
    as [_ [what Hwhat]].
  exists what. rewrite unpack_tensor_unfold. exact Hwhat.
Qed.

(** *** [unpack_tensor] on blocks without batch dimension *)

Lemma chunks_of_concat (shape : list nat) (n : nat) (ls : list (list elem)) :
  forall before : list elem,
    length before + length (concat ls) <= n ->
    chunks (mk_array shape (before ++ concat ls)) n [] (length before)
           (map (@length elem) ls)
    = map (@array1 elem) ls.
Proof.
  induction ls as [|l ls IH]; intros before Hn; simpl; [reflexivity|].
  simpl in Hn. rewrite length_app in Hn. f_equal.
  - unfold row_slice, array1. simpl.
    rewrite !Nat.min_l by lia.
    replace (length before + length l - length before) with (length l) by lia.
    rewrite !Nat.mul_1_r. f_equal.
    rewrite skipn_app, Nat.sub_diag, (skipn_all2 before) by lia. simpl.
    rewrite firstn_app, Nat.sub_diag, firstn_all. simpl. now rewrite app_nil_r.
  - specialize (IH (before ++ l)).
    rewrite length_app, <- app_assoc in IH. apply IH. lia.
Qed.

Lemma unpack_tensor_boxes (items : list (string * list nat))
  (blocks : list (list elem)) :
  NoDup (map fst items) ->
  Forall2 (fun item block => length block = np_prod (snd item)) items blocks ->
  unpack_tensor (array1 (concat blocks)) (Dict (boxes items))
  = Ok (ODict (named_arrays items
                 (map (fun p => mk_array (snd (fst p)) (snd p))
                      (combine items blocks)))).
Proof.
  intros Hnodup Hlen. rewrite unpack_tensor_unfold.
  cbn [ndim arr_shape array1 length Nat.ltb Nat.leb].
  rewrite _unpack_tensor_single_Dict, sizes_of_boxes. cbn [bind].
  assert (Hsizes : map (fun item => np_prod (snd item)) items
                   = map (@length elem) blocks).
  { clear Hnodup. induction Hlen as [|item block items blocks H _ IH];
      simpl; [reflexivity|]. now rewrite H, IH. }
  rewrite Hsizes. unfold torch_split. cbn [arr_shape array1].
  rewrite <- length_concat_sum, Nat.eqb_refl. cbn [bind].
  pose proof (chunks_of_concat [length (concat blocks)]
                (length (concat blocks)) blocks []) as Hchunks.
  simpl in Hchunks. unfold array1 at 1.
  rewrite Hchunks by lia. clear Hchunks Hsizes.
  assert (Hzip :
    zipM (fun unpacked item => v <- unpack_tensor unpacked (snd item) ;;
                               Ok (fst item, v))
         (map (@array1 elem) blocks) (boxes items)
    = Ok (named_arrays items
            (map (fun p => mk_array (snd (fst p)) (snd p))
                 (combine items blocks)))).
  { clear Hnodup. induction Hlen as [|[k shape] block items blocks H _ IH];
      [reflexivity|].
    change (map (@array1 elem) (block :: blocks))
      with (array1 block :: map (@array1 elem) blocks).
    change (boxes ((k, shape) :: items)) with ((k, Box shape) :: boxes items).
    rewrite zipM_cons, IH. cbn [fst snd].
    rewrite unpack_tensor_unfold.
    cbn [ndim arr_shape array1 length Nat.ltb Nat.leb _unpack_tensor_single].
    unfold torch_reshape, reshape. cbn [arr_data array1 snd].
    rewrite H, Nat.eqb_refl. reflexivity. }
  rewrite Hzip. cbn [bind]. rewrite OrderedDict_distinct; [reflexivity|].
  clear Hzip.
  assert (Hkeys : map fst (named_arrays items
                    (map (fun p => mk_array (snd (fst p)) (snd p))
                         (combine items blocks)))
                  = map fst items).
  { unfold named_arrays.
    clear Hnodup. induction Hlen as [|item block items blocks H _ IH];
      simpl; [reflexivity|]. now rewrite IH. }
  now rewrite Hkeys.
Qed.

(** On a block of the right length the two substrates return the same
    observation. *)
Lemma unpack_one_dim_agree (space : Space) (flat : ndarray elem) :
  flat_space space = true ->
  one_dim flat ->
  length (arr_data flat) = box_elements space ->
  exists obs,
    unpack_tensor flat space = Ok obs /\ unpack_array flat space = Ok obs.
Proof.
  intros Hflat Hdim Hlen. rewrite (one_dim_array1 flat Hdim).
  destruct space as [shape|spaces|n|members]; try discriminate.
  - simpl in Hlen. rewrite unpack_tensor_unfold.
    cbn [ndim arr_shape array1 length Nat.ltb Nat.leb
         _unpack_tensor_single unpack_array].
    unfold torch_reshape, np_reshape, reshape. cbn [arr_data array1].
    rewrite Hlen, Nat.eqb_refl. eexists. split; reflexivity.
  - destruct (flat_space_boxes spaces Hflat) as [items [-> [Hne Hnodup]]].
    rewrite box_elements_boxes in Hlen.
    destruct (split_by_sizes _ (arr_data flat) Hlen) as [blocks [Hcat Hblocks]].
    apply Forall2_of_map_left in Hblocks.
    rewrite <- Hcat. eexists. split.
    + now apply unpack_tensor_boxes.
    + now apply unpack_array_boxes.
Qed.

(** X12: on a box, and on a dict of boxes with distinct names, a
    one-dimensional block with as many elements as the boxes hold is
    unpacked by [unpack_tensor] and by [unpack_array] to the same
    observation. *)
Theorem unpack_tensor_agrees_with_unpack_array (space : Space)
  (flat : ndarray elem) :
  flat_space space = true ->
  arr_shape flat = [length (arr_data flat)] ->
  length (arr_data flat) = box_elements space ->
  unpack_tensor flat space = unpack_array flat space
  /\ exists obs, unpack_array flat space = Ok obs.
Proof.
  intros Hflat Hdim Hlen.
  destruct (unpack_one_dim_agree space flat Hflat Hdim Hlen)
    as [obs [Htensor Harray]].
  split; [congruence | now exists obs].
Qed.

(** X13: on a box, and on a dict of boxes, a one-dimensional block with
    more or fewer elements than the boxes hold makes [unpack_tensor] raise
    [RuntimeError]. *)
Theorem unpack_tensor_wrong_length_raises (space : Space) (flat : ndarray elem) :
  flat_space space = true ->
  arr_shape flat = [length (arr_data flat)] ->
  length (arr_data flat) <> box_elements space ->
  unpack_tensor flat space = Raise RuntimeError.
Proof.
  intros Hflat Hdim Hlen. rewrite unpack_tensor_unfold.
  unfold ndim. rewrite Hdim. cbn [length Nat.ltb Nat.leb].
  destruct space as [shape|spaces|n|members]; try discriminate.
  - simpl in Hlen. cbn [_unpack_tensor_single].
    unfold torch_reshape, reshape.
    destruct (Nat.eqb_spec (length (arr_data flat)) (np_prod shape));
      [contradiction | reflexivity].
  - destruct (flat_space_boxes spaces Hflat) as [items [-> _]].
    rewrite box_elements_boxes in Hlen.
    rewrite _unpack_tensor_single_Dict, sizes_of_boxes. cbn [bind].
    unfold torch_split. rewrite Hdim.
    destruct (Nat.eqb_spec
                (list_sum (map (fun item => np_prod (snd item)) items))
                (length (arr_data flat))) as [Heq|]; [|reflexivity].
    exfalso. apply Hlen. now symmetry.
Qed.

(** *** [unpack_tensor] on batches *)

(** X14: against a box, [unpack_tensor] is a reshape: a block without
    batch dimension takes the shape of the box, a batch of [N] blocks takes
    [N] in front of the shape of the box, the elements staying in place;
    a block without batch dimension whose number of elements is not that of
    the box raises [RuntimeError]. *)
Theorem unpack_tensor_box_is_reshape (x : ndarray elem) (shape : list nat) :
  (ndim x <= 1 -> length (arr_data x) = np_prod shape ->
   unpack_tensor x (Box shape) = Ok (OArr (mk_array shape (arr_data x))))
  /\ (ndim x <= 1 -> length (arr_data x) <> np_prod shape ->
      unpack_tensor x (Box shape) = Raise RuntimeError)
  /\ (forall N,
         arr_shape x = [N; np_prod shape] -> 0 < N -> wf_array x ->
         unpack_tensor x (Box shape)
         = Ok (OArr (mk_array (N :: shape) (arr_data x)))).
Proof.
  split; [|split].
  - intros Hrank Hlen. rewrite unpack_tensor_unfold.
    destruct (Nat.ltb_spec 1 (ndim x)); [lia|].
    cbn [_unpack_tensor_single]. unfold torch_reshape, reshape.
    now rewrite Hlen, Nat.eqb_refl.
  - intros Hrank Hlen. rewrite unpack_tensor_unfold.
    destruct (Nat.ltb_spec 1 (ndim x)); [lia|].
    cbn [_unpack_tensor_single]. unfold torch_reshape, reshape.
    destruct (Nat.eqb_spec (length (arr_data x)) (np_prod shape));
      [contradiction | reflexivity].
  - intros N Hshape HN Hwf. now apply unpack_tensor_Box_batch.
Qed.

(** X15: a batch of no blocks makes [unpack_tensor] raise [ValueError],
    against every space, also one of a kind the module does not handle:
    no slice is unpacked, and there is nothing to merge. *)
Theorem empty_batch_raises (obs : ndarray elem) (space : Space)
  (trailing : list nat) :
  arr_shape obs = 0 :: trailing -> trailing <> [] ->
  unpack_tensor obs space = Raise ValueError
  /\ _unpack_tensor_batched obs space = Raise ValueError.
Proof.
  intros Hshape Htrailing. split.
  - exact (unpack_tensor_empty_batch elem obs space trailing Hshape Htrailing).
  - rewrite _unpack_tensor_batched_unfold. unfold size0. rewrite Hshape.
    reflexivity.
Qed.

Lemma unpack_tensor_of_slices (obs : ndarray elem) (space : Space) (N : nat)
  (trailing : list nat) (per_slice : nat -> Obs elem) :
  wf_space space = true ->
  arr_shape obs = N :: trailing -> trailing <> [] -> 0 < N ->
  (forall i slice, i < N -> select obs i = Ok slice ->
                   unpack_tensor slice space = Ok (per_slice i)) ->
  exists R,
    unpack_tensor obs space = Ok R
    /\ conforms (N :: removelast trailing) space R
    /\ forall i, i < N -> obs_select R i = Ok (per_slice i).
Proof.
  intros Hwf Hshape Htrailing HN Hslices.
  assert (Hrank : 1 < ndim obs).
  { unfold ndim. rewrite Hshape. destruct trailing; [contradiction|].
    simpl. lia. }
  assert (Hlist :
    mapM (fun b => slice <- select obs b ;; unpack_tensor slice space) (seq 0 N)
    = Ok (map per_slice (seq 0 N))).
  { apply Forall2_mapM_Ok, Forall2_map_right, Forall2_diag.
    intros b Hb. apply in_seq in Hb.
    destruct (select_in_range elem obs N trailing b Hshape) as [slice [Hslice _]];
      [lia|].
    rewrite Hslice. cbn [bind]. apply (Hslices b slice); [lia | exact Hslice]. }
  assert (Hconf : forall i, i < N ->
                    conforms (removelast trailing) space (per_slice i)).
  { intros i Hi.
    destruct (select_in_range elem obs N trailing i Hshape Hi)
      as [slice [Hslice Hsh]].
    apply (unpack_tensor_conforms elem space Hwf trailing slice (per_slice i) Hsh).
    now apply (Hslices i slice). }
  destruct (_merge_unpacked_batch_conforms elem space (removelast trailing)
              (map per_slice (seq 0 N)) Hwf) as [R [HR [HconfR Hsel]]].
  - destruct N; [lia | discriminate].
  - apply Forall_map, Forall_forall. intros b Hb. apply in_seq in Hb.
    apply Hconf. lia.
  - rewrite length_map, length_seq in HconfR, Hsel.
    exists R. split; [|split; [exact HconfR|]].
    + rewrite unpack_tensor_unfold.
      destruct (Nat.ltb_spec 1 (ndim obs)); [|lia].
      rewrite _unpack_tensor_batched_unfold. unfold size0. rewrite Hshape.
      cbn [bind]. rewrite Hlist. exact HR.
    + intros i Hi. rewrite (Hsel i (per_slice 0) Hi). f_equal.
      rewrite map_nth, seq_nth by assumption. reflexivity.
Qed.

(** X16: on a box, and on a dict of boxes with distinct names,
    [unpack_tensor] returns a result for every batch of [N] blocks, [N] at
    least one, each with as many elements as the boxes hold: every leaf of
    the result has [N] in front of the shape of its box, and index [i] of
    the result is what [unpack_array] makes of block [i] alone. *)
Theorem unpack_tensor_batch_succeeds (space : Space) (obs : ndarray elem) (N : nat) :
  flat_space space = true ->
  arr_shape obs = [N; box_elements space] -> 0 < N -> wf_array obs ->
  exists R,
    unpack_tensor obs space = Ok R
    /\ conforms [N] space R
    /\ forall i, i < N ->
         exists slice r,
           select obs i = Ok slice
           /\ unpack_array slice space = Ok r
           /\ obs_select R i = Ok r.
Proof.
  intros Hflat Hshape HN Hwf.
  unfold wf_array in Hwf. rewrite Hshape in Hwf.
  cbn [np_prod fold_right] in Hwf. rewrite Nat.mul_1_r in Hwf.
  assert (Hslice : forall i slice, i < N -> select obs i = Ok slice ->
            exists r, unpack_tensor slice space = Ok r
                      /\ unpack_array slice space = Ok r).
  { intros i slice Hi Hsel. unfold select in Hsel. rewrite Hshape in Hsel.
    destruct (Nat.ltb_spec i N); [|lia]. inversion Hsel; subst slice. clear Hsel.
    cbn [np_prod fold_right]. rewrite Nat.mul_1_r.
    apply unpack_one_dim_agree; [exact Hflat| |].
    - unfold one_dim. cbn [arr_shape arr_data]. f_equal.
      rewrite length_firstn, length_skipn, Hwf. nia.
    - cbn [arr_data]. rewrite length_firstn, length_skipn, Hwf. nia. }
  pose (per_slice := fun i =>
          match select obs i with
          | Ok slice =>
              match unpack_array slice space with
              | Ok r => r
              | Raise _ => OArr obs
              end
          | Raise _ => OArr obs
          end).
  destruct (unpack_tensor_of_slices obs space N [box_elements space] per_slice)
    as [R [HR [Hconf Hsel]]]; try assumption.
  - now apply flat_space_wf.
  - discriminate.
  - intros i slice Hi Hs. destruct (Hslice i slice Hi Hs) as [r [Ht Ha]].
    unfold per_slice. now rewrite Hs, Ha.
  - exists R. split; [exact HR|]. split; [exact Hconf|].
    intros i Hi.
    destruct (select_in_range elem obs N [box_elements space] i Hshape Hi)
      as [slice [Hs _]].
    destruct (Hslice i slice Hi Hs) as [r [_ Ha]].
    exists slice, r. split; [exact Hs|]. split; [exact Ha|].
    rewrite (Hsel i Hi). unfold per_slice. now rewrite Hs, Ha.
Qed.

(** *** The wrapper and the baseline *)

(** X17: [flatten_obs] and [unflatten_obs] of a wrapper follow the
    original space of the model, whatever the space the model declares:
    with an original [Box] both return the observation as it is, with an
    original space of another kind both call gym with that original
    space. *)
Theorem wrapper_flatten_follows_original_space (self : RayModelWrapper elem)
  (obs : Obs elem) (original : Space) :
  original_space (model_obs_space (model self)) = Some original ->
  (is_box original = true ->
   flatten_obs gym_flatten self obs = Ok obs
   /\ unflatten_obs gym_unflatten self obs = Ok obs)
  /\ (is_box original = false ->
      flatten_obs gym_flatten self obs = gym_flatten original obs
      /\ unflatten_obs gym_unflatten self obs = gym_unflatten original obs).
Proof.
  intros Horiginal. unfold flatten_obs, unflatten_obs, obs_space.
  cbn [RayModelWrapper_Model bind]. unfold RayModelWrapper_obs_space.
  rewrite Horiginal.
  split; intros Hkind; destruct original; simpl in Hkind;
    try discriminate; split; reflexivity.
Qed.

(** X18: the baseline built for a valid observation of a box is a valid
    observation of the same box, all zeros, so it packs to a block with as
    many elements as the observation does. *)
Theorem baseline_keeps_the_layout (shape : list nat) (obs : Obs elem) :
  conforms [] (Box shape) obs ->
  conforms [] (Box shape) (baseline_builder zero obs)
  /\ pack_array float32 (baseline_builder zero obs) (Box shape)
     = Ok (array1 (repeat (float32 zero) (np_prod shape)))
  /\ exists packed,
       pack_array float32 obs (Box shape) = Ok packed
       /\ length (arr_data packed) = np_prod shape.
Proof.
  intros Hobs.
  destruct (conforms_Box_inv _ _ _ _ Hobs) as [a [-> [Hshape Hwf]]].
  simpl in Hshape. split; [|split].
  - simpl. split; [exact Hshape|].
    unfold wf_array, np_zeros_like. cbn [arr_data arr_shape].
    apply repeat_length.
  - cbn [baseline_builder pack_array np_asarray_f32_flatten].
    unfold np_zeros_like. cbn [arr_data]. now rewrite map_repeat, Hshape.
  - eexists. split; [reflexivity|]. cbn [arr_data array1].
    rewrite length_map, Hwf. now rewrite Hshape.
Qed.

(** X19: [forward] checks its input only against a box.  With an
    observation space of any other kind it calls the model exactly once,
    on the block as it is, whatever its shape; with a box and a block
    without batch dimension whose number of elements is not that of the
    box, it raises [RuntimeError] and does not call the model. *)
Theorem forward_checks_only_boxes (self : RayModelWrapper elem) (x : ndarray elem) :
  (is_box (RayModelWrapper_obs_space self) = false ->
   fst (forward self x)
   = [mk_invocation (mk_input_dict (OArr x) x) None None])
  /\ (forall shape,
         RayModelWrapper_obs_space self = Box shape ->
         ndim x <= 1 -> length (arr_data x) <> np_prod shape ->
         forward self x = ([], Raise RuntimeError)).
Proof.
  unfold forward, forward_input_dict. split.
  - intros Hkind.
    destruct (RayModelWrapper_obs_space self); simpl in Hkind;
      try discriminate; reflexivity.
  - intros shape Hspace Hrank Hlen. rewrite Hspace.
    rewrite unpack_tensor_unfold.
    destruct (Nat.ltb_spec 1 (ndim x)); [lia|].
    cbn [_unpack_tensor_single]. unfold torch_reshape, reshape.
    destruct (Nat.eqb_spec (length (arr_data x)) (np_prod shape));
      [contradiction | reflexivity].
Qed.

Lemma pack_array_float32_image (space : Space) :
  forall (obs : Obs elem) (packed : ndarray elem),
    pack_array float32 obs space = Ok packed ->
    Forall (fun v => exists u, v = float32 u) (arr_data packed).
Proof.
  induction space as [shape|spaces IH|n|members _] using Space_nested_ind;
    intros obs packed H; try discriminate.
  - destruct obs as [a|d]; [|discriminate]. inversion H; subst.
    cbn [arr_data array1]. apply Forall_map, Forall_forall.
    intros u _. now exists u.
  - rewrite pack_array_Dict in H.
    apply bind_Ok_inv in H. destruct H as [values [Hvalues Hcat]].
    destruct (np_concatenate_data values packed Hcat) as [_ ->].
    apply Forall_concat, Forall_map, Forall_forall. intros c Hc.
    apply mapM_Ok_Forall2 in Hvalues.
    destruct (Forall2_in_right _ _ _ _ _ _ Hvalues Hc) as [item [Hitem Hpack]].
    apply bind_Ok_inv in Hpack. destruct Hpack as [child [_ Hchild]].
    rewrite Forall_forall in IH. exact (IH item Hitem child c Hchild).
Qed.

(** X20: every element of a block that [pack_array] returns is the
    float32 conversion of some element, at every depth of nesting; when
    converting twice is converting once, converting the block again changes
    nothing. *)
Theorem pack_array_elements_are_float32 (space : Space) (obs : Obs elem)
  (packed : ndarray elem) :
  pack_array float32 obs space = Ok packed ->
  Forall (fun v => exists u, v = float32 u) (arr_data packed)
  /\ ((forall u, float32 (float32 u) = float32 u) ->
      map float32 (arr_data packed) = arr_data packed).
Proof.
  intros H. apply pack_array_float32_image in H. split; [exact H|].
  intros Hidem. induction H as [|v data [u ->] _ IH]; simpl; [reflexivity|].
  now rewrite Hidem, IH.
Qed.

End Coverage.

(** ** The further properties on the example inputs *)

(** X1 on [pos_vel]. *)
Lemma round_trip_one_level_witness :
  exists packed,
    pack_array float32_exact pos_vel_obs pos_vel = Ok packed
    /\ unpack_array packed pos_vel = Ok pos_vel_obs.
Proof.
  assert (Hobs : conforms [] pos_vel pos_vel_obs) by (cbv; repeat split).
  destruct (round_trip_one_level nat float32_exact pos_vel pos_vel_obs
              eq_refl Hobs) as [packed [Hpack [_ Hexact]]].
  exists packed. split; [exact Hpack | apply Hexact; reflexivity].
Defined.

(** X2 on [pos_vel] and the block [1; 2; 3]. *)
Lemma unpack_then_pack_one_level_witness :
  exists obs,
    unpack_array (array1 [1; 2; 3]) pos_vel = Ok obs
    /\ conforms [] pos_vel obs
    /\ pack_array float32_exact obs pos_vel = Ok (array1 [1; 2; 3]).
Proof.
  apply (unpack_then_pack_one_level nat float32_exact pos_vel (array1 [1; 2; 3]));
    reflexivity.
Defined.

(** X3 on [pos_vel] and a block of two elements. *)
Lemma unpack_array_wrong_length_raises_witness :
  unpack_array (array1 [1; 2]) pos_vel = Raise ValueError.
Proof.
  apply (unpack_array_wrong_length_raises nat pos_vel (array1 [1; 2]));
    [reflexivity | reflexivity | discriminate].
Defined.

(** X4 on [pos_vel] and the block [1; 2; 3]. *)
Lemma unpack_array_result_conforms_witness :
  conforms [] pos_vel
    (ODict [("pos", OArr (array1 [1; 2])); ("vel", OArr (array1 [3]))]).
Proof.
  apply (unpack_array_result_conforms nat pos_vel (array1 [1; 2; 3]));
    reflexivity.
Defined.

(** X5 on [nested]. *)
Lemma unpack_nested_dict_always_raises_witness :
  exists what,
    unpack_array (array1 [5; 6; 7]) nested = Raise (SpaceNotSupported what).
Proof.
  apply (proj1 (unpack_nested_dict_always_raises nat
                  [("a", Dict [("x", Box [1])]); ("b", Box [2])]
                  (array1 [5; 6; 7]) eq_refl)).
Defined.

(** X6 on [nested]. *)
Lemma pack_array_is_one_dimensional_witness :
  ndim (array1 [5; 6; 7]) = 1.
Proof.
  apply (proj2 (pack_array_is_one_dimensional nat float32_exact nested nested_obs
                  (array1 [5; 6; 7]) eq_refl)).
Defined.

(** X7 on [nested]: the block of the inner dict, then the block of the
    box. *)
Lemma pack_array_concatenates_children_witness :
  exists children,
    Forall2 (fun item c =>
               exists child,
                 getitem nested_obs (fst item) = Ok child
                 /\ pack_array float32_exact child (snd item) = Ok c)
            [("a", Dict [("x", Box [1])]); ("b", Box [2])] children
    /\ [5; 6; 7] = concat (map (@arr_data nat) children)
    /\ [("a", Dict [("x", Box [1])]); ("b", Box [2])] <> [].
Proof.
  apply (pack_array_concatenates_children nat float32_exact nested_obs
           [("a", Dict [("x", Box [1])]); ("b", Box [2])] (array1 [5; 6; 7])).
  reflexivity.
Defined.

(** X8 on a dict that holds an empty dict. *)
Lemma pack_array_needs_packable_space_witness :
  exists e,
    pack_array float32_exact (ODict [("a", ODict [])]) (Dict [("a", Dict [])])
    = Raise e.
Proof.
  apply (pack_array_needs_packable_space nat float32_exact
           (Dict [("a", Dict [])]) (ODict [("a", ODict [])])).
  reflexivity.
Defined.

(** X9 on [nested]. *)
Lemma pack_array_valid_observation_witness :
  exists packed,
    pack_array float32_exact nested_obs nested = Ok packed
    /\ arr_shape packed = [3]
    /\ length (arr_data packed) = 3.
Proof.
  apply (pack_array_valid_observation nat float32_exact nested nested_obs);
    [reflexivity | reflexivity | cbv; repeat split].
Defined.

(** X11 on [pos_vel] and an observation without velocity. *)
Lemma pack_array_missing_key_witness :
  pack_array float32_exact (ODict [("pos", OArr (array1 [1; 2]))]) pos_vel
  = Raise (KeyError "vel").
Proof.
  apply (proj1 (pack_array_missing_key nat float32_exact
                  [("pos", OArr (array1 [1; 2]))]
                  [("pos", Box [2])] [] "vel" (Box [1])
                  (ex_intro _ [array1 [1; 2]] eq_refl) eq_refl)).
Defined.

(** X12 on [pos_vel] and the block [1; 2; 3]. *)
Lemma unpack_tensor_agrees_with_unpack_array_witness :
  unpack_tensor (array1 [1; 2; 3]) pos_vel = unpack_array (array1 [1; 2; 3]) pos_vel.
Proof.
  apply (proj1 (unpack_tensor_agrees_with_unpack_array nat pos_vel
                  (array1 [1; 2; 3]) eq_refl eq_refl eq_refl)).
Defined.

(** X13 on [pos_vel] and a block of two elements. *)
Lemma unpack_tensor_wrong_length_raises_witness :
  unpack_tensor (array1 [1; 2]) pos_vel = Raise RuntimeError.
Proof.
  apply (unpack_tensor_wrong_length_raises nat pos_vel (array1 [1; 2]));
    [reflexivity | reflexivity | discriminate].
Defined.

(** X14 on a box of shape [2; 3] and a batch of two blocks. *)
Lemma unpack_tensor_box_is_reshape_witness :
  unpack_tensor (mk_array [2; 6] [1; 2; 3; 4; 5; 6; 7; 8; 9; 10; 11; 12])
    (Box [2; 3])
  = Ok (OArr (mk_array [2; 2; 3] [1; 2; 3; 4; 5; 6; 7; 8; 9; 10; 11; 12])).
Proof.
  apply (proj2 (proj2 (unpack_tensor_box_is_reshape nat
                         (mk_array [2; 6] [1; 2; 3; 4; 5; 6; 7; 8; 9; 10; 11; 12])
                         [2; 3])) 2);
    [reflexivity | lia | reflexivity].
Defined.

(** X15 on an empty batch and a [Discrete] space. *)
Lemma empty_batch_raises_witness :
  unpack_tensor (mk_array [0; 3] (@nil nat)) (Discrete 2) = Raise ValueError.
Proof.
  apply (proj1 (empty_batch_raises nat (mk_array [0; 3] []) (Discrete 2) [3]
                  eq_refl ltac:(discriminate))).
Defined.

(** X16 on [pos_vel] and a batch of two blocks. *)
Lemma unpack_tensor_batch_succeeds_witness :
  exists R,
    unpack_tensor (mk_array [2; 3] [1; 2; 3; 4; 5; 6]) pos_vel = Ok R
    /\ conforms [2] pos_vel R
    /\ forall i, i < 2 ->
         exists slice r,
           select (mk_array [2; 3] [1; 2; 3; 4; 5; 6]) i = Ok slice
           /\ unpack_array slice pos_vel = Ok r
           /\ obs_select R i = Ok r.
Proof.
  apply (unpack_tensor_batch_succeeds nat pos_vel
           (mk_array [2; 3] [1; 2; 3; 4; 5; 6]) 2);
    [reflexivity | reflexivity | lia | reflexivity].
Defined.

(** X17 on a model that declares a flattened box and has [pos_vel] as its
    original space. *)
Lemma wrapper_flatten_follows_original_space_witness :
  flatten_obs (fun space _ => Raise (SpaceNotSupported (PySpace space)))
    (echo_wrapper (Box [3]) (Some pos_vel)) pos_vel_obs
  = Raise (SpaceNotSupported (PySpace pos_vel)).
Proof.
  apply (proj1 (proj2 (wrapper_flatten_follows_original_space nat
                         (fun space _ => Raise (SpaceNotSupported (PySpace space)))
                         (fun space _ => Raise (SpaceNotSupported (PySpace space)))
                         (echo_wrapper (Box [3]) (Some pos_vel)) pos_vel_obs
                         pos_vel eq_refl) eq_refl)).
Defined.

(** X18 on a box of shape [2]. *)
Lemma baseline_keeps_the_layout_witness :
  pack_array float32_exact (baseline_builder 0 (OArr (array1 [1; 2]))) (Box [2])
  = Ok (array1 [0; 0]).
Proof.
  apply (proj1 (proj2 (baseline_keeps_the_layout nat float32_exact 0 [2]
                         (OArr (array1 [1; 2])) (conj eq_refl eq_refl)))).
Defined.

(** X19 on a wrapper for [pos_vel] and on one for a box of shape [4]. *)
Lemma forward_checks_only_boxes_witness :
  fst (forward (echo_wrapper pos_vel None) (array1 [1; 2]))
  = [mk_invocation (mk_input_dict (OArr (array1 [1; 2])) (array1 [1; 2]))
       None None]
  /\ forward (echo_wrapper (Box [4]) None) (array1 [1; 2])
     = ([], Raise RuntimeError).
Proof.
  split.
  - apply (proj1 (forward_checks_only_boxes nat (echo_wrapper pos_vel None)
                    (array1 [1; 2]))).
    reflexivity.
  - apply (proj2 (forward_checks_only_boxes nat (echo_wrapper (Box [4]) None)
                    (array1 [1; 2])) [4]);
      [reflexivity | vm_compute; lia | discriminate].
Defined.

(** X20 on [nested]. *)
Lemma pack_array_elements_are_float32_witness :
  map float32_exact [5; 6; 7] = [5; 6; 7].
Proof.
  apply (proj2 (pack_array_elements_are_float32 nat float32_exact nested
                  nested_obs (array1 [5; 6; 7]) eq_refl)).
  reflexivity.
Defined.
